(** * Prompt improver (src/index.tsx): credential handling and the improve request

    A shallow embedding of the page script.  The script keeps one module
    variable ([userApiKey]), reads and writes one entry of the browser's
    local storage, and drives a handful of DOM elements.  The state record
    below holds exactly the properties of those objects that the script reads
    or writes; every function of the script becomes a function on that
    record, named as in the source. *)

From Stdlib Require Import String Ascii NArith List Bool Lia.
From stdpp Require Import base option list countable gmap.
Import ListNotations.

Set Warnings "-register-all".

Local Open Scope N_scope.

(** ** JavaScript strings

    A JavaScript string is a sequence of UTF-16 code units; [String.trim]
    and [String.includes] work on code units, so strings are modelled as
    lists of code units (numbers below 65536). *)

Abbreviation jsstring := (list N).

(** The code units of an ASCII literal of the source. *)
Definition lit (s : string) : jsstring :=
  map N_of_ascii (list_ascii_of_string s).
Arguments lit s%_string.

(** The double quote character, which the request text puts around the
    user's prompt. *)
Definition dquote : jsstring := [34].

(** ECMAScript WhiteSpace and LineTerminator code points, the characters
    that [String.prototype.trim] strips. *)
Definition is_whitespace (c : N) : bool :=
  (c =? 9) || (c =? 10) || (c =? 11) || (c =? 12) || (c =? 13) || (c =? 32)
  || (c =? 160) || (c =? 5760) || ((8192 <=? c) && (c <=? 8202))
  || (c =? 8232) || (c =? 8233) || (c =? 8239) || (c =? 8287)
  || (c =? 12288) || (c =? 65279).

Fixpoint trimStart (s : jsstring) : jsstring :=
  match s with
  | c :: s' => if is_whitespace c then trimStart s' else s
  | [] => []
  end.

Definition trimEnd (s : jsstring) : jsstring := rev (trimStart (rev s)).

(** [s.trim()] *)
Definition trim (s : jsstring) : jsstring := trimEnd (trimStart s).

Fixpoint startsWith (s sub : jsstring) : bool :=
  match sub, s with
  | [], _ => true
  | _ :: _, [] => false
  | d :: sub', c :: s' => (c =? d) && startsWith s' sub'
  end.

(** [s.includes(sub)] *)
Fixpoint includes (s sub : jsstring) : bool :=
  startsWith s sub ||
  match s with
  | [] => false
  | _ :: s' => includes s' sub
  end.

(** Truthiness of a string: [!s] is true exactly for the empty string. *)
Definition nonempty (s : jsstring) : bool :=
  match s with [] => false | _ :: _ => true end.

(** Truthiness of a [string | null]: [null] and [''] are falsy. *)
Definition truthy (k : option jsstring) : bool :=
  match k with
  | Some s => nonempty s
  | None => false
  end.

(** ** State *)

Definition API_KEY_STORAGE_KEY : jsstring := lit "gemini-api-key".

(** The module variable, the local storage of the page's origin, and the
    properties of the DOM elements that the script touches.  A field
    [xEl_p] is property [p] of the element bound to [xEl] in the source;
    [apiKeyModalEl_hidden] says whether the modal's class list contains
    ['hidden']. *)
Record app := mkApp {
  userApiKey : option jsstring;
  localStorage : gmap jsstring jsstring;
  originalPromptEl_value : jsstring;
  improveButtonEl_disabled : bool;
  improveButtonEl_innerHTML : jsstring;
  statusEl_textContent : jsstring;
  improvedPromptEl_value : jsstring;
  explanationEl_value : jsstring;
  apiKeyInputEl_value : jsstring;
  apiKeyModalEl_hidden : bool
}.

Definition set_userApiKey (k : option jsstring) (st : app) : app :=
  mkApp k (localStorage st) (originalPromptEl_value st)
    (improveButtonEl_disabled st) (improveButtonEl_innerHTML st)
    (statusEl_textContent st) (improvedPromptEl_value st)
    (explanationEl_value st) (apiKeyInputEl_value st)
    (apiKeyModalEl_hidden st).

Definition set_localStorage (m : gmap jsstring jsstring) (st : app) : app :=
  mkApp (userApiKey st) m (originalPromptEl_value st)
    (improveButtonEl_disabled st) (improveButtonEl_innerHTML st)
    (statusEl_textContent st) (improvedPromptEl_value st)
    (explanationEl_value st) (apiKeyInputEl_value st)
    (apiKeyModalEl_hidden st).

Definition set_originalPrompt (v : jsstring) (st : app) : app :=
  mkApp (userApiKey st) (localStorage st) v
    (improveButtonEl_disabled st) (improveButtonEl_innerHTML st)
    (statusEl_textContent st) (improvedPromptEl_value st)
    (explanationEl_value st) (apiKeyInputEl_value st)
    (apiKeyModalEl_hidden st).

Definition set_improveButton (disabled : bool) (html : jsstring) (st : app) : app :=
  mkApp (userApiKey st) (localStorage st) (originalPromptEl_value st)
    disabled html
    (statusEl_textContent st) (improvedPromptEl_value st)
    (explanationEl_value st) (apiKeyInputEl_value st)
    (apiKeyModalEl_hidden st).

Definition set_status (v : jsstring) (st : app) : app :=
  mkApp (userApiKey st) (localStorage st) (originalPromptEl_value st)
    (improveButtonEl_disabled st) (improveButtonEl_innerHTML st)
    v (improvedPromptEl_value st)
    (explanationEl_value st) (apiKeyInputEl_value st)
    (apiKeyModalEl_hidden st).

Definition set_improvedPrompt (v : jsstring) (st : app) : app :=
  mkApp (userApiKey st) (localStorage st) (originalPromptEl_value st)
    (improveButtonEl_disabled st) (improveButtonEl_innerHTML st)
    (statusEl_textContent st) v
    (explanationEl_value st) (apiKeyInputEl_value st)
    (apiKeyModalEl_hidden st).

Definition set_explanation (v : jsstring) (st : app) : app :=
  mkApp (userApiKey st) (localStorage st) (originalPromptEl_value st)
    (improveButtonEl_disabled st) (improveButtonEl_innerHTML st)
    (statusEl_textContent st) (improvedPromptEl_value st)
    v (apiKeyInputEl_value st)
    (apiKeyModalEl_hidden st).

Definition set_apiKeyInput (v : jsstring) (st : app) : app :=
  mkApp (userApiKey st) (localStorage st) (originalPromptEl_value st)
    (improveButtonEl_disabled st) (improveButtonEl_innerHTML st)
    (statusEl_textContent st) (improvedPromptEl_value st)
    (explanationEl_value st) v
    (apiKeyModalEl_hidden st).

Definition set_modalHidden (h : bool) (st : app) : app :=
  mkApp (userApiKey st) (localStorage st) (originalPromptEl_value st)
    (improveButtonEl_disabled st) (improveButtonEl_innerHTML st)
    (statusEl_textContent st) (improvedPromptEl_value st)
    (explanationEl_value st) (apiKeyInputEl_value st)
    h.

(** ** API key management *)

(** [apiKeyInputEl.value = userApiKey || '';
     apiKeyModalEl.classList.remove('hidden');] *)
Definition showApiKeyModal (st : app) : app :=
  let st := set_apiKeyInput
              (if truthy (userApiKey st) then default [] (userApiKey st) else [])
              st in
  set_modalHidden false st.

(** [apiKeyModalEl.classList.add('hidden');] *)
Definition hideApiKeyModal (st : app) : app := set_modalHidden true st.

(** [improveButtonEl.disabled = !userApiKey;] *)
Definition updateUiForApiKey (st : app) : app :=
  set_improveButton (negb (truthy (userApiKey st))) (improveButtonEl_innerHTML st) st.

(** The writes to local storage are taken to succeed (no quota or
    security exception). *)
Definition saveApiKey (st : app) : app :=
  let key := trim (apiKeyInputEl_value st) in
  let st :=
    if nonempty key then
      let st := set_userApiKey (Some key) st in
      let st := set_localStorage (<[API_KEY_STORAGE_KEY := key]> (localStorage st)) st in
      let st := set_status (lit "API Key saved. You can now improve your prompts!") st in
      hideApiKeyModal st
    else
      let st := set_userApiKey None st in
      let st := set_localStorage (delete API_KEY_STORAGE_KEY (localStorage st)) st in
      set_status (lit "API Key removed. Please set a key to continue.") st
  in
  updateUiForApiKey st.

(** The part of [initializeApp] after the listeners are registered (the
    listeners are the events of the transition system further down):
    load the key from local storage, ask for one when there is none. *)
Definition initializeApp (st : app) : app :=
  let st := set_userApiKey (localStorage st !! API_KEY_STORAGE_KEY) st in
  let st :=
    if negb (truthy (userApiKey st)) then
      let st := showApiKeyModal st in
      set_status (lit "Please set your Gemini API Key to begin.") st
    else st
  in
  updateUiForApiKey st.

(** ** Values that come back from the service

    A JSON number is an IEEE double; the script can observe only its
    truthiness ([0] and [-0] are falsy) and the text that assigning it to a
    text area's [value] produces, so a number is carried as those two
    observations. *)
Record number := mkNumber { number_truthy : bool; number_text : jsstring }.

(** The result of [JSON.parse]: members of an object in source order. *)
Inductive json :=
| JNull
| JBool (b : bool)
| JNumber (n : number)
| JString (s : jsstring)
| JArray (items : list json)
| JObject (members : list (jsstring * json)).

(** The value of key [p] in an object built by [JSON.parse]: of several
    members with the same key the last one wins; [None] is [undefined]. *)
Fixpoint member (p : jsstring) (ms : list (jsstring * json)) : option json :=
  match ms with
  | [] => None
  | (k, v) :: ms' =>
      match member p ms' with
      | Some w => Some w
      | None => if decide (k = p) then Some v else None
      end
  end.

(** ToBoolean of a value read from the parsed response. *)
Definition ToBoolean (v : option json) : bool :=
  match v with
  | None => false
  | Some JNull => false
  | Some (JBool b) => b
  | Some (JNumber n) => number_truthy n
  | Some (JString s) => nonempty s
  | Some (JArray _) => true
  | Some (JObject _) => true
  end.

(** The string that a text area's [value] setter stores for a value:
    strings as they are, arrays joined with commas ([null] items as the
    empty string), plain objects as ['[object Object]']. *)
Fixpoint ToString (v : json) : jsstring :=
  match v with
  | JNull => lit "null"
  | JBool true => lit "true"
  | JBool false => lit "false"
  | JNumber n => number_text n
  | JString s => s
  | JArray items =>
      (fix join (l : list json) : jsstring :=
         match l with
         | [] => []
         | x :: l' =>
             match x with JNull => [] | _ => ToString x end
             ++ match l' with [] => [] | _ :: _ => lit "," ++ join l' end
         end) items
  | JObject _ => lit "[object Object]"
  end.

(** What assigning a value read from the parsed response to a text area's
    [value] stores: the attribute turns [null] into the empty string and
    converts everything else to a string. *)
Definition value_setter (v : option json) : jsstring :=
  match v with
  | None => lit "undefined"
  | Some JNull => []
  | Some x => ToString x
  end.

(** What is thrown on the paths of the handler is an [Error] object (the
    client library's errors, a failed fetch, the [SyntaxError] of
    [JSON.parse], the [TypeError] of a property read on [null], the handler's
    own [Error]); the handler looks only at its [message]. *)
Record error := Error { message : jsstring }.

Inductive completion (A : Type) :=
| Normal (a : A)
| Throw (e : error).
Arguments Normal {A} a.
Arguments Throw {A} e.

(** How the one awaited call of the handler ends, together with what
    [JSON.parse] then makes of [result.text]. *)
Inductive outcome :=
| Rejected (e : error)     (* the awaited [generateContent] throws [e] *)
| Unparsable (e : error)   (* it resolves, [JSON.parse(result.text)] throws [e] *)
| Parsed (v : json).       (* it resolves, [JSON.parse(result.text)] is [v] *)

(** The argument of [ai.models.generateContent], with the key that the
    client was built with. *)
Record request := mkRequest {
  req_apiKey : jsstring;
  req_model : jsstring;
  req_text : jsstring;
  req_responseMimeType : jsstring;
  req_properties : list jsstring;   (* each of [Type.STRING] *)
  req_required : list jsstring
}.

Definition generateContent_request (apiKey originalPrompt : jsstring) : request :=
  {| req_apiKey := apiKey;
     req_model := lit "gemini-2.5-pro";
     req_text :=
       lit "You are an expert prompt engineer. Your task is to rewrite the following user-provided prompt to be more effective for a large language model. Provide the improved prompt and a brief explanation of why your version is better. The user's prompt is: "
       ++ dquote ++ originalPrompt ++ dquote;
     req_responseMimeType := lit "application/json";
     req_properties := [lit "improvedPrompt"; lit "explanation"];
     req_required := [lit "improvedPrompt"; lit "explanation"] |}.

(** ** A state and exception monad for the body of the handler *)

Definition M (A : Type) : Type := app -> completion A * app.

Definition ret {A} (a : A) : M A := fun st => (Normal a, st).

Definition bind {A B} (m : M A) (k : A -> M B) : M B :=
  fun st =>
    match m st with
    | (Normal a, st') => k a st'
    | (Throw e, st') => (Throw e, st')
    end.

Definition throw {A} (e : error) : M A := fun st => (Throw e, st).

Definition lift {A} (c : completion A) : M A := fun st => (c, st).

Definition modify (f : app -> app) : M unit := fun st => (Normal tt, f st).

(** [try { body } catch (error) { handler error }] *)
Definition try_catch {A} (body : M A) (handler : error -> M A) : M A :=
  fun st =>
    match body st with
    | (Normal a, st') => (Normal a, st')
    | (Throw e, st') => handler e st'
    end.

(** [try { body } finally { fin }]: [fin] runs on both exits and keeps the
    completion of [body] unless it throws itself. *)
Definition try_finally {A} (body : M A) (fin : M unit) : M A :=
  fun st =>
    match body st with
    | (r, st') =>
        match fin st' with
        | (Normal _, st'') => (r, st'')
        | (Throw e, st'') => (Throw e, st'')
        end
    end.

(** With these instances stdpp's notations [x ← m; k] and [m;; k] sequence
    the statements of a block. *)
#[export] Instance M_ret : MRet M := @ret.
#[export] Instance M_bind : MBind M := fun A B k m => bind m k.

(** ** The improve handler *)

Definition setLoadingState (isLoading : bool) (st : app) : app :=
  set_improveButton isLoading
    (if isLoading then lit "<span>Improving...</span>" else lit "Improve Prompt")
    st.

Definition clearOutputs (st : app) : app :=
  let st := set_improvedPrompt [] st in
  set_explanation [] st.

(** Where an invocation of [handleImproveClick] stands when it first gives
    up control: it has returned, or it waits for the answer to a request. *)
Inductive pending :=
| Finished (st : app)
| Awaiting (st : app) (req : request).

(** [handleImproveClick] up to its [await].  The client constructor is
    given a non-empty key here and so does not throw. *)
Definition handleImproveClick (st : app) : pending :=
  if negb (truthy (userApiKey st)) then
    let st := set_status (lit "Please set your API key in the settings first.") st in
    Finished (showApiKeyModal st)
  else
    let originalPrompt := trim (originalPromptEl_value st) in
    if negb (nonempty originalPrompt) then
      Finished (set_status (lit "Please enter a prompt first.") st)
    else
      let st := setLoadingState true st in
      let st := clearOutputs st in
      let st := set_status (lit "Optimizing with AI...") st in
      Awaiting st (generateContent_request (default [] (userApiKey st)) originalPrompt).

Definition credential_invalid_marker : jsstring := lit "API key not valid".

(** [new Error("Invalid response format from the AI.")] *)
Definition invalid_response_format : error :=
  Error (lit "Invalid response format from the AI.").

Section Engine.

(** The message of the [TypeError] that the JavaScript engine raises for
    reading property [p] of [null]; its text differs between engines. *)
Variable TypeError_message : jsstring -> jsstring.

(** [v.p] for a value [v] that [JSON.parse] returned and a name [p] that no
    prototype defines (as is the case for the two names the handler reads). *)
Definition get_property (v : json) (p : jsstring) : completion (option json) :=
  match v with
  | JNull => Throw (Error (TypeError_message p))
  | JObject ms => Normal (member p ms)
  | _ => Normal None
  end.

(** The statements of the [try] block from the [await] on.  [both] is the
    condition [parsedResponse.improvedPrompt && parsedResponse.explanation],
    which reads the second property only when the first is truthy. *)
Definition try_block (o : outcome) : M unit :=
  parsedResponse ← lift (match o with
                         | Rejected e => Throw e
                         | Unparsable e => Throw e
                         | Parsed v => Normal v
                         end);
  improvedPrompt ← lift (get_property parsedResponse (lit "improvedPrompt"));
  both ← (if ToBoolean improvedPrompt then
            explanation ← lift (get_property parsedResponse (lit "explanation"));
            mret (ToBoolean explanation)
          else mret false);
  if both : bool then
    improvedPrompt ← lift (get_property parsedResponse (lit "improvedPrompt"));
    modify (set_improvedPrompt (value_setter improvedPrompt));;
    explanation ← lift (get_property parsedResponse (lit "explanation"));
    modify (set_explanation (value_setter explanation));;
    modify (set_status (lit "Prompt improved successfully!"))
  else
    throw invalid_response_format.

Definition catch_block (error : error) : M unit :=
  (if includes (message error) credential_invalid_marker then
     modify (set_status (lit "Your API Key is not valid. Please check it in settings."));;
     modify showApiKeyModal
   else
     modify (set_status (lit "An error occurred. Please check the console and try again.")));;
  modify (set_explanation (lit "Error Details: " ++ message error)).

(** [handleImproveClick] from its [await] on, given how the call ended. *)
Definition handleImproveClick_resume (o : outcome) : M unit :=
  try_finally
    (try_catch (try_block o) catch_block)
    (modify (setLoadingState false)).

(** The request fails with [e]: the [try] block throws [e] (the awaited
    call, [JSON.parse], a property read, or the handler's own check). *)
Definition fails_with (o : outcome) (e : error) : Prop :=
  forall st, fst (try_block o st) = Throw e.

(** One whole invocation with nothing else running while it waits. *)
Definition improve (o : outcome) (st : app) : app :=
  match handleImproveClick st with
  | Finished st' => st'
  | Awaiting st' _ => snd (handleImproveClick_resume o st')
  end.

End Engine.

(** ** The page as a transition system

    The browser runs one handler at a time.  While [handleImproveClick]
    waits for the service the user can go on clicking and typing, so the
    page is a transition system whose state is the script's state and the
    requests that have not been answered yet. *)

Record world := mkWorld {
  ui : app;
  inflight : list request
}.

Inductive event :=
| ClickImprove                       (* click on [improveButtonEl] *)
| ClickSettings                      (* click on [settingsButtonEl] *)
| ClickCloseModal                    (* the close button, or the modal's backdrop *)
| ClickSaveKey                       (* click on [saveKeyButtonEl] *)
| InputPrompt (v : jsstring)         (* the user edits [originalPromptEl] *)
| InputApiKey (v : jsstring)         (* the user edits [apiKeyInputEl] *)
| Settle (i : nat) (o : outcome).    (* the [i]-th pending request ends with [o] *)

Section Page.

Variable TypeError_message : jsstring -> jsstring.

(** One event; [None] when the event cannot occur.  A disabled button
    dispatches no click event, and only a pending request can settle.  The
    other events are always allowed: which of them the open modal blocks
    depends on the page's markup.  After its [await] the handler uses no
    local variable of the invocation other than the answer, so every
    pending request resumes with [handleImproveClick_resume] on the state
    of the page as it is then. *)
Definition step (w : world) (e : event) : option world :=
  match e with
  | ClickImprove =>
      if improveButtonEl_disabled (ui w) then None
      else
        match handleImproveClick (ui w) with
        | Finished st => Some (mkWorld st (inflight w))
        | Awaiting st req => Some (mkWorld st (inflight w ++ [req]))
        end
  | ClickSettings => Some (mkWorld (showApiKeyModal (ui w)) (inflight w))
  | ClickCloseModal => Some (mkWorld (hideApiKeyModal (ui w)) (inflight w))
  | ClickSaveKey => Some (mkWorld (saveApiKey (ui w)) (inflight w))
  | InputPrompt v => Some (mkWorld (set_originalPrompt v (ui w)) (inflight w))
  | InputApiKey v => Some (mkWorld (set_apiKeyInput v (ui w)) (inflight w))
  | Settle i o =>
      match inflight w !! i with
      | None => None
      | Some _ =>
          Some (mkWorld (snd (handleImproveClick_resume TypeError_message o (ui w)))
                        (delete i (inflight w)))
      end
  end.

Fixpoint run (w : world) (es : list event) : option world :=
  match es with
  | [] => Some w
  | e :: es' =>
      match step w e with
      | Some w' => run w' es'
      | None => None
      end
  end.

(** The page when the script has been loaded ([userApiKey] still [null])
    and [initializeApp] has run. *)
Definition start (page : app) : world :=
  mkWorld (initializeApp (set_userApiKey None page)) [].

Inductive reachable : world -> Prop :=
| reachable_start (page : app) : reachable (start page)
| reachable_step (w w' : world) (e : event) :
    reachable w -> step w e = Some w' -> reachable w'.

(** The states reached when the key is never saved while a request is
    pending. *)
Inductive reachable_saving_idle : world -> Prop :=
| saving_idle_start (page : app) : reachable_saving_idle (start page)
| saving_idle_step (w w' : world) (e : event) :
    reachable_saving_idle w ->
    (e = ClickSaveKey -> inflight w = []) ->
    step w e = Some w' ->
    reachable_saving_idle w'.

End Page.

(** The text of the [TypeError] in V8 (Chrome, Edge, Node), for the
    concrete runs below. *)
Definition v8_TypeError_message (p : jsstring) : jsstring :=
  lit "Cannot read properties of null (reading '" ++ p ++ lit "')".

(** ** Vocabulary of the statements *)

(** The request that an invocation has issued when it gives up control. *)
Definition issued (p : pending) : option request :=
  match p with
  | Finished _ => None
  | Awaiting _ req => Some req
  end.

(** What holds of every state the page can reach: the in-memory key is
    what local storage holds, and an empty-string key (which only a value
    found in storage at load time can be) means that the button is still
    disabled and nothing has been requested. *)
Definition consistent (w : world) : Prop :=
  userApiKey (ui w) = localStorage (ui w) !! API_KEY_STORAGE_KEY
  /\ (userApiKey (ui w) = Some [] ->
      improveButtonEl_disabled (ui w) = true /\ inflight w = []).

(** At most one request is pending, and the button is disabled while it
    is. *)
Definition one_at_a_time (w : world) : Prop :=
  inflight w = []
  \/ ((exists req, inflight w = [req]) /\ improveButtonEl_disabled (ui w) = true).

(** Of a state after a run: whether the button is disabled, and how many
    requests are waiting for their answer. *)
Definition button_and_requests (w : option world) : option (bool * nat) :=
  match w with
  | Some w => Some (improveButtonEl_disabled (ui w), length (inflight w))
  | None => None
  end.

(** ** Inputs of the concrete runs *)

Definition page_without_key : app :=
  mkApp None ∅ (lit "Summarise this text") true (lit "Improve Prompt")
    [] [] [] [] true.

(** A page whose local storage holds the empty string under the key. *)
Definition page_with_empty_key : app :=
  mkApp None (<[API_KEY_STORAGE_KEY := []]> ∅)
    [] false (lit "Improve Prompt") [] [] [] [] true.

(** The page as loaded with a key in local storage, and a prompt. *)
Definition page_stored_key : app :=
  mkApp None (<[API_KEY_STORAGE_KEY := lit "k"]> ∅)
    (lit "hi") false (lit "Improve Prompt") [] [] [] [] true.

(** The page as loaded with a key in local storage, and a blank prompt. *)
Definition page_stored_key_blank_prompt : app :=
  mkApp None (<[API_KEY_STORAGE_KEY := lit "k"]> ∅)
    (lit "   ") false (lit "Improve Prompt") [] [] [] [] true.

(** A page with a key, a prompt, and the text of an earlier failure still
    in the explanation output. *)
Definition page_ready : app :=
  mkApp (Some (lit "k")) (<[API_KEY_STORAGE_KEY := lit "k"]> ∅)
    (lit "  hi ") false (lit "Improve Prompt") (lit "old status")
    (lit "old output") (lit "Error Details: old") [] true.

Definition response_without_prompt : json :=
  JObject [(lit "explanation", JString (lit "x"))].

Definition response_with_empty_prompt : json :=
  JObject [(lit "improvedPrompt", JString []); (lit "explanation", JString (lit "x"))].

Definition response_well_formed : json :=
  JObject [(lit "improvedPrompt", JString (lit "Better"));
           (lit "explanation", JString (lit "Because"))].

Definition invalid_key_error : error :=
  Error (lit "API key not valid. Please pass a valid API key.").

Definition fetch_error : error := Error (lit "Failed to fetch").

(** ** The copy buttons

    [copyToClipboard] works on one of three text areas and the button next
    to it; [initializeApp] wires each button to its text area.  A button is
    its label and its [disabled] flag. *)

Record button := mkButton {
  button_innerHTML : jsstring;
  button_disabled : bool
}.

Inductive copy_target := CopyOriginal | CopyImproved | CopyExplanation.

(** [textarea.value] of the text area that the listener of each button
    passes. *)
Definition textarea_value (t : copy_target) (st : app) : jsstring :=
  match t with
  | CopyOriginal => originalPromptEl_value st
  | CopyImproved => improvedPromptEl_value st
  | CopyExplanation => explanationEl_value st
  end.

(** Where an invocation of [copyToClipboard] stands when it first gives up
    control: it has returned, or it waits for [writeText(text)]. *)
Inductive copy_pending :=
| CopyReturned
| CopyAwaiting (text : jsstring).

(** [copyToClipboard] up to its [await]; [button] is [None] for a missing
    element ([!button]). *)
Definition copyToClipboard (textarea : jsstring) (button : option button) : copy_pending :=
  if negb (nonempty textarea) then CopyReturned
  else
    match button with
    | None => CopyReturned
    | Some _ => CopyAwaiting textarea
    end.

(** How [navigator.clipboard.writeText] ends. *)
Inductive write_outcome :=
| Written
| WriteRejected (e : error).

(** [copyToClipboard] from its [await] on: the new state of the button,
    and the [originalContent] that the timeout it has set will restore (no
    timeout when the write was rejected: the [catch] block only logs). *)
Definition copyToClipboard_resume (o : write_outcome) (b : button)
  : button * option jsstring :=
  match o with
  | Written =>
      let originalContent := button_innerHTML b in
      (mkButton (lit "<span>Copied!</span>") true, Some originalContent)
  | WriteRejected _ => (b, None)
  end.

(** The callback given to [setTimeout]. *)
Definition restore_button (originalContent : jsstring) (b : button) : button :=
  mkButton originalContent false.

(** The page with its copy buttons, the clipboard as far as the page has
    written it, the calls of [writeText] that have not ended, and the
    timeouts that have not fired (oldest first, each with the button and
    the content it restores). *)
Record desk := mkDesk {
  desk_page : world;
  copyOriginalButtonEl : button;
  copyImprovedButtonEl : button;
  copyExplanationButtonEl : button;
  clipboard : option jsstring;
  writes : list (copy_target * jsstring);
  timers : list (copy_target * jsstring)
}.

Definition copyButton (d : desk) (t : copy_target) : button :=
  match t with
  | CopyOriginal => copyOriginalButtonEl d
  | CopyImproved => copyImprovedButtonEl d
  | CopyExplanation => copyExplanationButtonEl d
  end.

Definition set_copyButton (t : copy_target) (b : button) (d : desk) : desk :=
  match t with
  | CopyOriginal =>
      mkDesk (desk_page d) b (copyImprovedButtonEl d) (copyExplanationButtonEl d)
        (clipboard d) (writes d) (timers d)
  | CopyImproved =>
      mkDesk (desk_page d) (copyOriginalButtonEl d) b (copyExplanationButtonEl d)
        (clipboard d) (writes d) (timers d)
  | CopyExplanation =>
      mkDesk (desk_page d) (copyOriginalButtonEl d) (copyImprovedButtonEl d) b
        (clipboard d) (writes d) (timers d)
  end.

Definition set_desk_page (w : world) (d : desk) : desk :=
  mkDesk w (copyOriginalButtonEl d) (copyImprovedButtonEl d)
    (copyExplanationButtonEl d) (clipboard d) (writes d) (timers d).

Definition set_clipboard (c : option jsstring) (d : desk) : desk :=
  mkDesk (desk_page d) (copyOriginalButtonEl d) (copyImprovedButtonEl d)
    (copyExplanationButtonEl d) c (writes d) (timers d).

Definition set_writes (l : list (copy_target * jsstring)) (d : desk) : desk :=
  mkDesk (desk_page d) (copyOriginalButtonEl d) (copyImprovedButtonEl d)
    (copyExplanationButtonEl d) (clipboard d) l (timers d).

Definition set_timers (l : list (copy_target * jsstring)) (d : desk) : desk :=
  mkDesk (desk_page d) (copyOriginalButtonEl d) (copyImprovedButtonEl d)
    (copyExplanationButtonEl d) (clipboard d) (writes d) l.

Inductive desk_event :=
| PageEvent (e : event)                        (* an event of the page proper *)
| ClickCopy (t : copy_target)                  (* click on a copy button *)
| WriteSettles (i : nat) (o : write_outcome)   (* the [i]-th pending [writeText] ends *)
| TimerFires.                                  (* the oldest pending timeout fires *)

Section Desk.

Variable TypeError_message : jsstring -> jsstring.

(** One event of the page with its copy buttons.  A disabled copy button
    dispatches no click; all timeouts have the same delay, so they fire in
    the order in which they were set. *)
Definition step_desk (d : desk) (e : desk_event) : option desk :=
  match e with
  | PageEvent e =>
      match step TypeError_message (desk_page d) e with
      | Some w => Some (set_desk_page w d)
      | None => None
      end
  | ClickCopy t =>
      if button_disabled (copyButton d t) then None
      else
        match copyToClipboard (textarea_value t (ui (desk_page d)))
                (Some (copyButton d t)) with
        | CopyReturned => Some d
        | CopyAwaiting text => Some (set_writes (writes d ++ [(t, text)]) d)
        end
  | WriteSettles i o =>
      match writes d !! i with
      | None => None
      | Some (t, text) =>
          let d := set_writes (delete i (writes d)) d in
          let d := match o with
                   | Written => set_clipboard (Some text) d
                   | WriteRejected _ => d
                   end in
          match copyToClipboard_resume o (copyButton d t) with
          | (b, Some originalContent) =>
              Some (set_timers (timers d ++ [(t, originalContent)])
                      (set_copyButton t b d))
          | (b, None) => Some (set_copyButton t b d)
          end
      end
  | TimerFires =>
      match timers d with
      | [] => None
      | (t, originalContent) :: rest =>
          Some (set_timers rest
                  (set_copyButton t
                     (restore_button originalContent (copyButton d t)) d))
      end
  end.

Fixpoint run_desk (d : desk) (es : list desk_event) : option desk :=
  match es with
  | [] => Some d
  | e :: es' =>
      match step_desk d e with
      | Some d' => run_desk d' es'
      | None => None
      end
  end.

(** The states the page reaches from [d0]. *)
Inductive desk_reachable (d0 : desk) : desk -> Prop :=
| desk_reachable_here : desk_reachable d0 d0
| desk_reachable_step (d d' : desk) (e : desk_event) :
    desk_reachable d0 d -> step_desk d e = Some d' -> desk_reachable d0 d'.

End Desk.

(** A request as the handler builds it: a non-empty key, and a prompt that
    is non-empty and has no white space around it. *)
Definition well_formed_request (r : request) : Prop :=
  exists apiKey prompt,
    r = generateContent_request apiKey prompt
    /\ apiKey <> [] /\ prompt <> [] /\ trim prompt = prompt.

(** No white space at either end. *)
Definition trimmed (s : jsstring) : Prop :=
  (forall c t, s = c :: t -> is_whitespace c = false)
  /\ (forall c t, s = t ++ [c] -> is_whitespace c = false).

(** Every disabled copy button has a timeout pending that enables it. *)
Definition disabled_buttons_have_timers (d : desk) : Prop :=
  forall t, button_disabled (copyButton d t) = true ->
            exists originalContent, In (t, originalContent) (timers d).

(** A desk for the concrete runs: the ready page, nothing pending. *)
Definition desk_ready : desk :=
  mkDesk (mkWorld page_ready [])
    (mkButton (lit "Copy") false) (mkButton (lit "Copy") false)
    (mkButton (lit "Copy") false) None [] [].


(** * Properties *)

(** ** Strings *)

Lemma trimStart_nil_iff (s : jsstring) :
  trimStart s = [] <-> forallb is_whitespace s = true.
Proof.
  induction s as [|c s IH]; simpl.
  - tauto.
  - destruct (is_whitespace c); simpl.
    + exact IH.
    + split; discriminate.
Qed.

Lemma forallb_rev (f : N -> bool) (s : jsstring) :
  forallb f (rev s) = forallb f s.
Proof.
  induction s as [|c s IH]; simpl; [reflexivity|].
  rewrite forallb_app, IH. simpl. rewrite andb_true_r. apply andb_comm.
Qed.

Lemma trimStart_head (s : jsstring) (c : N) (t : jsstring) :
  trimStart s = c :: t -> is_whitespace c = false.
Proof.
  induction s as [|d s IH]; simpl; [discriminate|].
  destruct (is_whitespace d) eqn:Hd; [exact IH|].
  intros [= <- _]. exact Hd.
Qed.

(** A string trims to the empty string exactly when it consists of white
    space only (the empty string included). *)
Lemma trim_nil_iff (s : jsstring) :
  trim s = [] <-> forallb is_whitespace s = true.
Proof.
  unfold trim, trimEnd. split.
  - intros H. apply trimStart_nil_iff.
    destruct (trimStart s) as [|c t] eqn:Hs; [reflexivity|].
    exfalso.
    assert (Hr : trimStart (rev (c :: t)) = []).
    { destruct (trimStart (rev (c :: t))) as [|x u]; [reflexivity|].
      simpl in H. destruct (rev u); discriminate. }
    apply trimStart_nil_iff in Hr. rewrite forallb_rev in Hr. simpl in Hr.
    rewrite (trimStart_head _ _ _ Hs) in Hr. discriminate.
  - intros H. apply trimStart_nil_iff in H. rewrite H. reflexivity.
Qed.

Lemma nonempty_true (s : jsstring) : nonempty s = true <-> s <> [].
Proof. destruct s; simpl; split; congruence. Qed.

(** ** Saving and loading the key *)

Lemma saveApiKey_nonempty (st : app) :
  trim (apiKeyInputEl_value st) <> [] ->
  saveApiKey st =
    mkApp (Some (trim (apiKeyInputEl_value st)))
      (<[API_KEY_STORAGE_KEY := trim (apiKeyInputEl_value st)]> (localStorage st))
      (originalPromptEl_value st) false (improveButtonEl_innerHTML st)
      (lit "API Key saved. You can now improve your prompts!")
      (improvedPromptEl_value st) (explanationEl_value st)
      (apiKeyInputEl_value st) true.
Proof.
  intros H. apply nonempty_true in H as Hne. unfold saveApiKey. rewrite Hne.
  unfold updateUiForApiKey, hideApiKeyModal. simpl. rewrite Hne. reflexivity.
Qed.

Lemma saveApiKey_empty (st : app) :
  trim (apiKeyInputEl_value st) = [] ->
  saveApiKey st =
    mkApp None (delete API_KEY_STORAGE_KEY (localStorage st))
      (originalPromptEl_value st) true (improveButtonEl_innerHTML st)
      (lit "API Key removed. Please set a key to continue.")
      (improvedPromptEl_value st) (explanationEl_value st)
      (apiKeyInputEl_value st) (apiKeyModalEl_hidden st).
Proof.
  intros H. unfold saveApiKey. rewrite H. reflexivity.
Qed.

(** C8: [saveApiKey] trims the input first.  An input that is empty or
    consists of white space only removes the stored key, sets the
    in-memory key to [null] and leaves the modal as it is (open); any other
    input has a non-empty trimmed value, which is stored under the fixed
    local-storage key (and kept in memory), and the modal is closed. *)
Theorem saveApiKey_trims_then_stores_or_removes (st : app) :
  let key := trim (apiKeyInputEl_value st) in
  let st' := saveApiKey st in
  if forallb is_whitespace (apiKeyInputEl_value st) then
    key = []
    /\ localStorage st' !! API_KEY_STORAGE_KEY = None
    /\ userApiKey st' = None
    /\ apiKeyModalEl_hidden st' = apiKeyModalEl_hidden st
  else
    key <> []
    /\ localStorage st' !! API_KEY_STORAGE_KEY = Some key
    /\ userApiKey st' = Some key
    /\ apiKeyModalEl_hidden st' = true.
Proof.
  intros key st'. subst key st'.
  destruct (forallb is_whitespace (apiKeyInputEl_value st)) eqn:Hws.
  - apply trim_nil_iff in Hws. rewrite (saveApiKey_empty st Hws). simpl.
    split; [exact Hws|]. split; [apply lookup_delete_eq|]. split; reflexivity.
  - assert (Hne : trim (apiKeyInputEl_value st) <> []).
    { intros H. apply trim_nil_iff in H. congruence. }
    rewrite (saveApiKey_nonempty st Hne). simpl.
    split; [exact Hne|]. split; [apply lookup_insert_eq|]. split; reflexivity.
Qed.

Lemma initializeApp_key (st : app) :
  userApiKey (initializeApp st) = localStorage st !! API_KEY_STORAGE_KEY
  /\ localStorage (initializeApp st) = localStorage st
  /\ improveButtonEl_disabled (initializeApp st)
     = negb (truthy (localStorage st !! API_KEY_STORAGE_KEY)).
Proof.
  unfold initializeApp.
  change (userApiKey (set_userApiKey (localStorage st !! API_KEY_STORAGE_KEY) st))
    with (localStorage st !! API_KEY_STORAGE_KEY).
  destruct (truthy (localStorage st !! API_KEY_STORAGE_KEY)) eqn:E;
    cbn -[lookup API_KEY_STORAGE_KEY]; rewrite ?E; repeat split.
Qed.

Lemma saveApiKey_key (st : app) :
  userApiKey (saveApiKey st) = localStorage (saveApiKey st) !! API_KEY_STORAGE_KEY
  /\ improveButtonEl_disabled (saveApiKey st) = negb (truthy (userApiKey (saveApiKey st)))
  /\ userApiKey (saveApiKey st) <> Some [].
Proof.
  destruct (trim (apiKeyInputEl_value st)) as [|c k] eqn:Hk.
  - rewrite (saveApiKey_empty st Hk). simpl.
    rewrite lookup_delete_eq. repeat split. discriminate.
  - assert (Hne : trim (apiKeyInputEl_value st) <> []) by (rewrite Hk; discriminate).
    rewrite (saveApiKey_nonempty st Hne), Hk. simpl.
    rewrite lookup_insert_eq. repeat split. discriminate.
Qed.

(** C10, as stated, fails after initialization when the stored value is
    the empty string: the key is then present in memory and in storage,
    with equal values, and yet the trigger control is disabled. *)
Lemma empty_stored_key_present_but_disabled :
  let st := initializeApp page_with_empty_key in
  userApiKey st = Some []
  /\ localStorage st !! API_KEY_STORAGE_KEY = Some []
  /\ improveButtonEl_disabled st = true
  /\ ~ (improveButtonEl_disabled st = false <-> userApiKey st <> None).
Proof.
  assert (Hl : localStorage page_with_empty_key !! API_KEY_STORAGE_KEY = Some [])
    by apply lookup_insert_eq.
  destruct (initializeApp_key page_with_empty_key) as (Hk & Hs & Hd).
  cbv zeta. rewrite Hd, Hs, Hk, Hl.
  split; [reflexivity|]. split; [reflexivity|]. split; [reflexivity|].
  intros [_ H]. discriminate H. discriminate.
Qed.

(** C10 (amended): after [initializeApp] and after every [saveApiKey] the
    in-memory key is non-null exactly when a value is stored under the
    fixed local-storage key, and the two values are then equal.  The
    trigger control is enabled exactly when the in-memory key is a
    non-empty string; after [saveApiKey] that is the same as the key
    being non-null. *)
Theorem credential_agrees_with_storage (st : app) :
  (let st' := initializeApp st in
   (userApiKey st' <> None <-> localStorage st' !! API_KEY_STORAGE_KEY <> None)
   /\ userApiKey st' = localStorage st' !! API_KEY_STORAGE_KEY
   /\ (improveButtonEl_disabled st' = false <-> truthy (userApiKey st') = true))
  /\
  (let st' := saveApiKey st in
   (userApiKey st' <> None <-> localStorage st' !! API_KEY_STORAGE_KEY <> None)
   /\ userApiKey st' = localStorage st' !! API_KEY_STORAGE_KEY
   /\ (improveButtonEl_disabled st' = false <-> truthy (userApiKey st') = true)
   /\ (improveButtonEl_disabled st' = false <-> userApiKey st' <> None)).
Proof.
  split; cbv zeta.
  - destruct (initializeApp_key st) as (Hk & Hs & Hd).
    rewrite Hd, Hs, Hk.
    split; [tauto|]. split; [reflexivity|].
    destruct (truthy (localStorage st !! API_KEY_STORAGE_KEY)); simpl; split; congruence.
  - destruct (saveApiKey_key st) as (Hk & Hd & Hne).
    rewrite Hd, <- Hk.
    split; [tauto|]. split; [reflexivity|].
    destruct (userApiKey (saveApiKey st)) as [[|c k]|]; simpl;
      repeat split; congruence.
Qed.

(** ** The improve handler up to its request *)

Lemma handleImproveClick_no_key (st : app) :
  truthy (userApiKey st) = false ->
  handleImproveClick st =
    Finished (showApiKeyModal
                (set_status (lit "Please set your API key in the settings first.") st)).
Proof. intros H. unfold handleImproveClick. rewrite H. reflexivity. Qed.

Lemma handleImproveClick_no_prompt (st : app) :
  truthy (userApiKey st) = true ->
  trim (originalPromptEl_value st) = [] ->
  handleImproveClick st = Finished (set_status (lit "Please enter a prompt first.") st).
Proof. intros Hk Hp. unfold handleImproveClick. rewrite Hk, Hp. reflexivity. Qed.

Lemma handleImproveClick_validated (st : app) :
  truthy (userApiKey st) = true ->
  trim (originalPromptEl_value st) <> [] ->
  handleImproveClick st =
    Awaiting (set_status (lit "Optimizing with AI...")
                (clearOutputs (setLoadingState true st)))
             (generateContent_request (default [] (userApiKey st))
                (trim (originalPromptEl_value st))).
Proof.
  intros Hk Hp. apply nonempty_true in Hp.
  unfold handleImproveClick. rewrite Hk, Hp. reflexivity.
Qed.

Lemma handleImproveClick_awaiting (st st1 : app) (req : request) :
  handleImproveClick st = Awaiting st1 req ->
  truthy (userApiKey st) = true
  /\ trim (originalPromptEl_value st) <> []
  /\ st1 = set_status (lit "Optimizing with AI...")
             (clearOutputs (setLoadingState true st))
  /\ req = generateContent_request (default [] (userApiKey st))
             (trim (originalPromptEl_value st)).
Proof.
  unfold handleImproveClick.
  destruct (truthy (userApiKey st)); simpl; [|discriminate].
  destruct (nonempty (trim (originalPromptEl_value st))) eqn:Hp; simpl; [|discriminate].
  intros [= <- <-]. apply nonempty_true in Hp. auto.
Qed.

(** C1: invoked while no key is held ([userApiKey] is [null]), the handler
    issues no request, sets the status text to the message that asks for
    the key, and opens the key modal. *)
Theorem improve_without_key_asks_for_key (st : app) :
  userApiKey st = None ->
  issued (handleImproveClick st) = None
  /\ exists st', handleImproveClick st = Finished st'
     /\ statusEl_textContent st' = lit "Please set your API key in the settings first."
     /\ apiKeyModalEl_hidden st' = false.
Proof.
  intros H.
  assert (Hk : truthy (userApiKey st) = false) by (rewrite H; reflexivity).
  rewrite (handleImproveClick_no_key st Hk).
  split; [reflexivity|]. eexists. split; [reflexivity|]. split; reflexivity.
Qed.

Lemma improve_without_key_asks_for_key_witness :
  userApiKey page_without_key = None
  /\ issued (handleImproveClick page_without_key) = None.
Proof.
  split; [reflexivity|].
  exact (proj1 (improve_without_key_asks_for_key page_without_key eq_refl)).
Defined.

(** ** The improve handler from its request on *)

Ltac run_block :=
  unfold try_block, catch_block, mbind, mret, M_bind, M_ret, bind, ret, lift,
    modify, throw.

Section Answers.

Variable TypeError_message : jsstring -> jsstring.

Lemma get_property_defined (v : json) (p q : jsstring) (a : option json) :
  get_property TypeError_message v p = Normal a ->
  exists b, get_property TypeError_message v q = Normal b.
Proof. destruct v; simpl; intros H; try discriminate; eexists; reflexivity. Qed.

(** A [try] block that throws has not changed the state. *)
Lemma try_block_throws (o : outcome) (st : app) (e : error) :
  fst (try_block TypeError_message o st) = Throw e ->
  try_block TypeError_message o st = (Throw e, st).
Proof.
  run_block. destruct o as [e0|e0|v]; simpl; try (intros [= ->]; reflexivity).
  destruct (get_property TypeError_message v (lit "improvedPrompt")) as [x|e0];
    simpl; [|intros [= ->]; reflexivity].
  destruct (ToBoolean x); simpl; [|intros [= <-]; reflexivity].
  destruct (get_property TypeError_message v (lit "explanation")) as [y|e0];
    simpl; [|intros [= ->]; reflexivity].
  destruct (ToBoolean y); simpl; [discriminate|intros [= <-]; reflexivity].
Qed.

Lemma try_block_invalid (v : json) (st : app) (x : option json) :
  get_property TypeError_message v (lit "improvedPrompt") = Normal x ->
  (ToBoolean x = false
   \/ exists y, get_property TypeError_message v (lit "explanation") = Normal y
                /\ ToBoolean y = false) ->
  try_block TypeError_message (Parsed v) st = (Throw invalid_response_format, st).
Proof.
  intros Hx H. run_block. simpl. rewrite Hx. simpl.
  destruct (ToBoolean x) eqn:Hbx; simpl; [|reflexivity].
  destruct H as [H|(y & Hy & Hby)]; [discriminate|].
  rewrite Hy. simpl. rewrite Hby. reflexivity.
Qed.

Lemma try_block_populates (v : json) (st : app) (x y : option json) :
  get_property TypeError_message v (lit "improvedPrompt") = Normal x ->
  ToBoolean x = true ->
  get_property TypeError_message v (lit "explanation") = Normal y ->
  ToBoolean y = true ->
  try_block TypeError_message (Parsed v) st =
    (Normal tt,
     set_status (lit "Prompt improved successfully!")
       (set_explanation (value_setter y)
          (set_improvedPrompt (value_setter x) st))).
Proof.
  intros Hx Hbx Hy Hby. run_block. simpl.
  rewrite Hx. simpl. rewrite Hbx, Hy. simpl. rewrite Hby. reflexivity.
Qed.

Lemma catch_block_invalid_key (e : error) (st : app) :
  includes (message e) credential_invalid_marker = true ->
  catch_block e st =
    (Normal tt,
     set_explanation (lit "Error Details: " ++ message e)
       (showApiKeyModal
          (set_status (lit "Your API Key is not valid. Please check it in settings.") st))).
Proof. intros H. run_block. rewrite H. reflexivity. Qed.

Lemma catch_block_other (e : error) (st : app) :
  includes (message e) credential_invalid_marker = false ->
  catch_block e st =
    (Normal tt,
     set_explanation (lit "Error Details: " ++ message e)
       (set_status (lit "An error occurred. Please check the console and try again.") st)).
Proof. intros H. run_block. rewrite H. reflexivity. Qed.

Lemma catch_block_returns (e : error) (st : app) :
  fst (catch_block e st) = Normal tt.
Proof.
  destruct (includes (message e) credential_invalid_marker) eqn:H.
  - rewrite (catch_block_invalid_key e st H). reflexivity.
  - rewrite (catch_block_other e st H). reflexivity.
Qed.

Lemma resume_after_throw (o : outcome) (st : app) (e : error) :
  fst (try_block TypeError_message o st) = Throw e ->
  handleImproveClick_resume TypeError_message o st =
    (Normal tt, setLoadingState false (snd (catch_block e st))).
Proof.
  intros H. apply try_block_throws in H.
  unfold handleImproveClick_resume, try_finally, try_catch. rewrite H.
  pose proof (catch_block_returns e st) as Hc.
  destruct (catch_block e st) as [r st']. simpl in Hc. subst r. reflexivity.
Qed.

Lemma resume_after_return (o : outcome) (st st' : app) :
  try_block TypeError_message o st = (Normal tt, st') ->
  handleImproveClick_resume TypeError_message o st =
    (Normal tt, setLoadingState false st').
Proof.
  intros H. unfold handleImproveClick_resume, try_finally, try_catch.
  rewrite H. reflexivity.
Qed.

(** Whatever the answer, the handler returns normally and leaves the
    button enabled with its idle label. *)
Lemma resume_enables_button (o : outcome) (st : app) :
  fst (handleImproveClick_resume TypeError_message o st) = Normal tt
  /\ improveButtonEl_disabled (snd (handleImproveClick_resume TypeError_message o st)) = false
  /\ userApiKey (snd (handleImproveClick_resume TypeError_message o st)) = userApiKey st
  /\ localStorage (snd (handleImproveClick_resume TypeError_message o st)) = localStorage st.
Proof.
  destruct (try_block TypeError_message o st) as [[[]|e] st'] eqn:Ht.
  - rewrite (resume_after_return o st st' Ht). simpl.
    split; [reflexivity|]. split; [reflexivity|].
    revert Ht. run_block. destruct o as [e0|e0|v]; simpl; try discriminate.
    destruct (get_property TypeError_message v (lit "improvedPrompt")) as [x|e0];
      simpl; [|discriminate].
    destruct (ToBoolean x); simpl; [|discriminate].
    destruct (get_property TypeError_message v (lit "explanation")) as [y|e0];
      simpl; [|discriminate].
    destruct (ToBoolean y); simpl; [|discriminate].
    intros [= <-]. split; reflexivity.
  - assert (H : fst (try_block TypeError_message o st) = Throw e) by (rewrite Ht; reflexivity).
    rewrite (resume_after_throw o st e H). simpl.
    split; [reflexivity|]. split; [reflexivity|].
    destruct (includes (message e) credential_invalid_marker) eqn:Hi.
    + rewrite (catch_block_invalid_key e st Hi). split; reflexivity.
    + rewrite (catch_block_other e st Hi). split; reflexivity.
Qed.

Lemma improve_validated (o : outcome) (st : app) :
  truthy (userApiKey st) = true ->
  trim (originalPromptEl_value st) <> [] ->
  improve TypeError_message o st =
    snd (handleImproveClick_resume TypeError_message o
           (set_status (lit "Optimizing with AI...")
              (clearOutputs (setLoadingState true st)))).
Proof.
  intros Hk Hp. unfold improve.
  rewrite (handleImproveClick_validated st Hk Hp). reflexivity.
Qed.

Lemma improve_failed (o : outcome) (e : error) (st : app) :
  truthy (userApiKey st) = true ->
  trim (originalPromptEl_value st) <> [] ->
  fails_with TypeError_message o e ->
  improve TypeError_message o st =
    setLoadingState false
      (snd (catch_block e
              (set_status (lit "Optimizing with AI...")
                 (clearOutputs (setLoadingState true st))))).
Proof.
  intros Hk Hp Hf. rewrite (improve_validated o st Hk Hp).
  rewrite (resume_after_throw o _ e (Hf _)). reflexivity.
Qed.

Lemma invalid_format_is_other :
  includes (message invalid_response_format) credential_invalid_marker = false.
Proof. reflexivity. Qed.

Lemma improve_invalid_format (v : json) (st : app) :
  truthy (userApiKey st) = true ->
  trim (originalPromptEl_value st) <> [] ->
  fails_with TypeError_message (Parsed v) invalid_response_format ->
  let st' := improve TypeError_message (Parsed v) st in
  statusEl_textContent st'
    = lit "An error occurred. Please check the console and try again."
  /\ improvedPromptEl_value st' = []
  /\ explanationEl_value st'
     = lit "Error Details: Invalid response format from the AI.".
Proof.
  intros Hk Hp Hf. cbv zeta.
  rewrite (improve_failed _ _ st Hk Hp Hf).
  rewrite (catch_block_other _ _ invalid_format_is_other).
  split; [reflexivity|]. split; reflexivity.
Qed.

(** C3 (amended): when the parsed response lacks [improvedPrompt] or
    lacks [explanation] (reading the property gives [undefined]), the
    request fails with the handler's own "Invalid response format" error:
    the status text is the generic error message, the improved-prompt
    output is left empty, and the explanation output receives the error
    detail. *)
Theorem response_missing_field_is_error (st : app) (v : json) :
  truthy (userApiKey st) = true ->
  trim (originalPromptEl_value st) <> [] ->
  (get_property TypeError_message v (lit "improvedPrompt") = Normal None
   \/ get_property TypeError_message v (lit "explanation") = Normal None) ->
  let st' := improve TypeError_message (Parsed v) st in
  fails_with TypeError_message (Parsed v) invalid_response_format
  /\ statusEl_textContent st'
     = lit "An error occurred. Please check the console and try again."
  /\ improvedPromptEl_value st' = []
  /\ explanationEl_value st'
     = lit "Error Details: Invalid response format from the AI.".
Proof.
  intros Hk Hp Hm.
  assert (Hf : fails_with TypeError_message (Parsed v) invalid_response_format).
  { intros st0. destruct Hm as [Hm|Hm].
    - rewrite (try_block_invalid v st0 None Hm); [reflexivity|].
      left. reflexivity.
    - destruct (get_property_defined v _ (lit "improvedPrompt") _ Hm) as [x Hx].
      rewrite (try_block_invalid v st0 x Hx); [reflexivity|].
      right. exists None. split; [exact Hm | reflexivity]. }
  split; [exact Hf|]. exact (improve_invalid_format v st Hk Hp Hf).
Qed.

(** C9: when the parsed response has both fields but one of them is the
    empty string, the truthiness check rejects it: the request fails with
    the "Invalid response format" error and the outputs are not filled
    from the response (the improved-prompt output stays empty, the
    explanation output holds the error detail). *)
Theorem response_with_empty_field_is_error (st : app) (v x y : json) :
  truthy (userApiKey st) = true ->
  trim (originalPromptEl_value st) <> [] ->
  get_property TypeError_message v (lit "improvedPrompt") = Normal (Some x) ->
  get_property TypeError_message v (lit "explanation") = Normal (Some y) ->
  x = JString [] \/ y = JString [] ->
  let st' := improve TypeError_message (Parsed v) st in
  fails_with TypeError_message (Parsed v) invalid_response_format
  /\ statusEl_textContent st'
     = lit "An error occurred. Please check the console and try again."
  /\ improvedPromptEl_value st' = []
  /\ explanationEl_value st'
     = lit "Error Details: Invalid response format from the AI.".
Proof.
  intros Hk Hp Hx Hy He.
  assert (Hf : fails_with TypeError_message (Parsed v) invalid_response_format).
  { intros st0. rewrite (try_block_invalid v st0 (Some x) Hx); [reflexivity|].
    destruct He as [->| ->].
    - left. reflexivity.
    - right. exists (Some (JString [])). split; [exact Hy | reflexivity]. }
  split; [exact Hf|]. exact (improve_invalid_format v st Hk Hp Hf).
Qed.

(** C4 (amended): when the request fails with an error whose message
    contains ['API key not valid'], the status text is the invalid-key
    message, the key modal is opened again, the improved-prompt output is
    left empty, and the explanation output receives the error detail. *)
Theorem invalid_key_failure_reopens_modal (st : app) (o : outcome) (e : error) :
  truthy (userApiKey st) = true ->
  trim (originalPromptEl_value st) <> [] ->
  fails_with TypeError_message o e ->
  includes (message e) credential_invalid_marker = true ->
  let st' := improve TypeError_message o st in
  statusEl_textContent st'
    = lit "Your API Key is not valid. Please check it in settings."
  /\ apiKeyModalEl_hidden st' = false
  /\ improvedPromptEl_value st' = []
  /\ explanationEl_value st' = lit "Error Details: " ++ message e.
Proof.
  intros Hk Hp Hf Hi. cbv zeta.
  rewrite (improve_failed o e st Hk Hp Hf).
  rewrite (catch_block_invalid_key e _ Hi).
  split; [reflexivity|]. split; [reflexivity|]. split; reflexivity.
Qed.

(** C6: when the request fails with an error whose message does not
    contain ['API key not valid'], the status text is the generic error
    message and the explanation output receives the error's message text,
    unchanged, after the label ['Error Details: ']. *)
Theorem other_failure_reports_error_detail (st : app) (o : outcome) (e : error) :
  truthy (userApiKey st) = true ->
  trim (originalPromptEl_value st) <> [] ->
  fails_with TypeError_message o e ->
  includes (message e) credential_invalid_marker = false ->
  let st' := improve TypeError_message o st in
  statusEl_textContent st'
    = lit "An error occurred. Please check the console and try again."
  /\ explanationEl_value st' = lit "Error Details: " ++ message e.
Proof.
  intros Hk Hp Hf Hi. cbv zeta.
  rewrite (improve_failed o e st Hk Hp Hf).
  rewrite (catch_block_other e _ Hi).
  split; reflexivity.
Qed.

(** C5 (amended): when the parsed response has both fields as non-empty
    strings, the handler writes the two values into the improved-prompt
    and explanation outputs and sets the success status; whatever the
    outputs held before the request (error text included) is gone. *)
Theorem well_formed_response_fills_outputs (st : app) (v : json) (a b : jsstring) :
  truthy (userApiKey st) = true ->
  trim (originalPromptEl_value st) <> [] ->
  get_property TypeError_message v (lit "improvedPrompt") = Normal (Some (JString a)) ->
  get_property TypeError_message v (lit "explanation") = Normal (Some (JString b)) ->
  a <> [] ->
  b <> [] ->
  let st' := improve TypeError_message (Parsed v) st in
  improvedPromptEl_value st' = a
  /\ explanationEl_value st' = b
  /\ statusEl_textContent st' = lit "Prompt improved successfully!".
Proof.
  intros Hk Hp Ha Hb Hna Hnb. cbv zeta.
  apply nonempty_true in Hna, Hnb.
  rewrite (improve_validated (Parsed v) st Hk Hp).
  rewrite (resume_after_return (Parsed v) _ _
             (try_block_populates v _ _ _ Ha Hna Hb Hnb)).
  split; [reflexivity|]. split; reflexivity.
Qed.

End Answers.

(** ** Concrete runs *)

Lemma page_ready_validated :
  truthy (userApiKey page_ready) = true
  /\ trim (originalPromptEl_value page_ready) <> [].
Proof. split; [reflexivity | vm_compute; discriminate]. Defined.

Lemma rejected_fails_with (TypeError_message : jsstring -> jsstring) (e : error) :
  fails_with TypeError_message (Rejected e) e.
Proof. intros st. reflexivity. Defined.

Lemma response_missing_field_is_error_witness :
  get_property v8_TypeError_message response_without_prompt (lit "improvedPrompt")
    = Normal None
  /\ improvedPromptEl_value
       (improve v8_TypeError_message (Parsed response_without_prompt) page_ready) = [].
Proof.
  split; [reflexivity|].
  exact (proj1 (proj2 (proj2
    (response_missing_field_is_error v8_TypeError_message page_ready
       response_without_prompt (proj1 page_ready_validated)
       (proj2 page_ready_validated) (or_introl eq_refl))))).
Defined.

(** C3, as stated, fails: a response without [improvedPrompt] does not
    leave the explanation output empty. *)
Lemma missing_field_fills_explanation :
  get_property v8_TypeError_message response_without_prompt (lit "improvedPrompt")
    = Normal None
  /\ issued (handleImproveClick page_ready) <> None
  /\ explanationEl_value
       (improve v8_TypeError_message (Parsed response_without_prompt) page_ready)
     = lit "Error Details: Invalid response format from the AI."
  /\ explanationEl_value
       (improve v8_TypeError_message (Parsed response_without_prompt) page_ready)
     <> [].
Proof.
  split; [reflexivity|]. split; [vm_compute; discriminate|].
  split; [reflexivity | vm_compute; discriminate].
Qed.

Lemma response_with_empty_field_is_error_witness :
  get_property v8_TypeError_message response_with_empty_prompt (lit "improvedPrompt")
    = Normal (Some (JString []))
  /\ statusEl_textContent
       (improve v8_TypeError_message (Parsed response_with_empty_prompt) page_ready)
     = lit "An error occurred. Please check the console and try again.".
Proof.
  split; [reflexivity|].
  exact (proj1 (proj2
    (response_with_empty_field_is_error v8_TypeError_message page_ready
       response_with_empty_prompt (JString []) (JString (lit "x"))
       (proj1 page_ready_validated) (proj2 page_ready_validated)
       eq_refl eq_refl (or_introl eq_refl)))).
Defined.

Lemma invalid_key_failure_reopens_modal_witness :
  includes (message invalid_key_error) credential_invalid_marker = true
  /\ apiKeyModalEl_hidden
       (improve v8_TypeError_message (Rejected invalid_key_error) page_ready) = false.
Proof.
  split; [reflexivity|].
  exact (proj1 (proj2
    (invalid_key_failure_reopens_modal v8_TypeError_message page_ready
       (Rejected invalid_key_error) invalid_key_error
       (proj1 page_ready_validated) (proj2 page_ready_validated)
       (rejected_fails_with v8_TypeError_message invalid_key_error) eq_refl))).
Defined.

(** C4, as stated, fails: after an invalid-key failure the explanation
    output is not empty, it holds the error detail. *)
Lemma invalid_key_failure_fills_explanation :
  includes (message invalid_key_error) credential_invalid_marker = true
  /\ issued (handleImproveClick page_ready) <> None
  /\ explanationEl_value
       (improve v8_TypeError_message (Rejected invalid_key_error) page_ready)
     = lit "Error Details: API key not valid. Please pass a valid API key."
  /\ explanationEl_value
       (improve v8_TypeError_message (Rejected invalid_key_error) page_ready)
     <> [].
Proof.
  split; [reflexivity|]. split; [vm_compute; discriminate|].
  split; [reflexivity | vm_compute; discriminate].
Qed.

Lemma other_failure_reports_error_detail_witness :
  includes (message fetch_error) credential_invalid_marker = false
  /\ explanationEl_value
       (improve v8_TypeError_message (Rejected fetch_error) page_ready)
     = lit "Error Details: Failed to fetch".
Proof.
  split; [reflexivity|].
  exact (proj2
    (other_failure_reports_error_detail v8_TypeError_message page_ready
       (Rejected fetch_error) fetch_error
       (proj1 page_ready_validated) (proj2 page_ready_validated)
       (rejected_fails_with v8_TypeError_message fetch_error) eq_refl)).
Defined.

Lemma well_formed_response_fills_outputs_witness :
  explanationEl_value page_ready = lit "Error Details: old"
  /\ improvedPromptEl_value
       (improve v8_TypeError_message (Parsed response_well_formed) page_ready)
     = lit "Better"
  /\ explanationEl_value
       (improve v8_TypeError_message (Parsed response_well_formed) page_ready)
     = lit "Because".
Proof.
  split; [reflexivity|].
  assert (Ha : lit "Better" <> []) by discriminate.
  assert (Hb : lit "Because" <> []) by discriminate.
  pose proof (well_formed_response_fills_outputs v8_TypeError_message page_ready
                response_well_formed (lit "Better") (lit "Because")
                (proj1 page_ready_validated) (proj2 page_ready_validated)
                eq_refl eq_refl Ha Hb) as H.
  exact (conj (proj1 H) (proj1 (proj2 H))).
Defined.

(** C5, as stated, fails: a response with both fields as strings, one of
    them empty, is not written to the outputs and gives no success
    status. *)
Lemma empty_field_response_not_written :
  get_property v8_TypeError_message response_with_empty_prompt (lit "improvedPrompt")
    = Normal (Some (JString []))
  /\ get_property v8_TypeError_message response_with_empty_prompt (lit "explanation")
    = Normal (Some (JString (lit "x")))
  /\ issued (handleImproveClick page_ready) <> None
  /\ explanationEl_value
       (improve v8_TypeError_message (Parsed response_with_empty_prompt) page_ready)
     <> lit "x"
  /\ statusEl_textContent
       (improve v8_TypeError_message (Parsed response_with_empty_prompt) page_ready)
     <> lit "Prompt improved successfully!".
Proof.
  split; [reflexivity|]. split; [reflexivity|].
  split; [vm_compute; discriminate|].
  split; vm_compute; discriminate.
Qed.

(** ** The page as a whole *)

Lemma handleImproveClick_keeps_key (st : app) :
  match handleImproveClick st with
  | Finished st' =>
      userApiKey st' = userApiKey st /\ localStorage st' = localStorage st
      /\ improveButtonEl_disabled st' = improveButtonEl_disabled st
  | Awaiting st' _ =>
      userApiKey st' = userApiKey st /\ localStorage st' = localStorage st
      /\ truthy (userApiKey st) = true
  end.
Proof.
  unfold handleImproveClick.
  destruct (truthy (userApiKey st)) eqn:Hk; simpl; [|repeat split].
  destruct (nonempty (trim (originalPromptEl_value st))); simpl; repeat split.
Qed.

Section Page_facts.

Variable TypeError_message : jsstring -> jsstring.

Lemma start_consistent (page : app) : consistent (start page).
Proof.
  unfold consistent, start. cbn [ui inflight].
  destruct (initializeApp_key (set_userApiKey None page)) as (Hk & Hs & Hd).
  rewrite Hk, Hs, Hd. split; [reflexivity|].
  intros ->. split; reflexivity.
Qed.

Lemma step_consistent (w w' : world) (e : event) :
  consistent w -> step TypeError_message w e = Some w' -> consistent w'.
Proof.
  intros [Hk He]. unfold consistent.
  destruct e as [| | | |v|v|i o]; simpl.
  - destruct (improveButtonEl_disabled (ui w)) eqn:Hd; [discriminate|].
    pose proof (handleImproveClick_keeps_key (ui w)) as H.
    destruct (handleImproveClick (ui w)) as [st'|st' req];
      intros [= <-]; cbn [ui inflight].
    + destruct H as (-> & -> & ->). split; [exact Hk|].
      intros H0. destruct (He H0) as [H1 _]. congruence.
    + destruct H as (-> & -> & Ht). split; [exact Hk|].
      intros H0. rewrite H0 in Ht. discriminate.
  - intros [= <-]. exact (conj Hk He).
  - intros [= <-]. exact (conj Hk He).
  - intros [= <-]. cbn [ui inflight].
    destruct (saveApiKey_key (ui w)) as (Hs & _ & Hne).
    split; [exact Hs|]. intros H0. contradiction.
  - intros [= <-]. exact (conj Hk He).
  - intros [= <-]. exact (conj Hk He).
  - destruct (inflight w !! i) as [req|] eqn:Hi; [|discriminate].
    intros [= <-]. cbn [ui inflight].
    destruct (resume_enables_button TypeError_message o (ui w)) as (_ & _ & -> & ->).
    split; [exact Hk|].
    intros H0. destruct (He H0) as [_ H1]. rewrite H1 in Hi. discriminate.
Qed.

Lemma reachable_consistent (w : world) :
  reachable TypeError_message w -> consistent w.
Proof.
  induction 1 as [page|w w' e _ IH Hs].
  - apply start_consistent.
  - exact (step_consistent w w' e IH Hs).
Qed.

(** The handler runs only as the click listener of the button, and a
    click reaches it only while the button is enabled; a key it then finds
    in memory is never the empty string. *)
Lemma clickable_key_truthy (w : world) :
  reachable TypeError_message w ->
  improveButtonEl_disabled (ui w) = false ->
  userApiKey (ui w) <> None ->
  truthy (userApiKey (ui w)) = true.
Proof.
  intros Hr Hd Hk. destruct (reachable_consistent w Hr) as [_ He].
  destruct (userApiKey (ui w)) as [[|c k]|]; [|reflexivity|contradiction].
  destruct (He eq_refl) as [H _]. congruence.
Qed.

(** C2: whenever the handler is invoked (a click on the enabled button,
    in any state the page can reach) while a key is held and the prompt
    input is empty or trims to the empty string, it issues no request and
    changes nothing but the status text, which asks for a prompt. *)
Theorem empty_prompt_only_asks_for_prompt (w : world) :
  reachable TypeError_message w ->
  improveButtonEl_disabled (ui w) = false ->
  userApiKey (ui w) <> None ->
  trim (originalPromptEl_value (ui w)) = [] ->
  issued (handleImproveClick (ui w)) = None
  /\ handleImproveClick (ui w)
     = Finished (set_status (lit "Please enter a prompt first.") (ui w))
  /\ step TypeError_message w ClickImprove
     = Some (mkWorld (set_status (lit "Please enter a prompt first.") (ui w))
                     (inflight w)).
Proof.
  intros Hr Hd Hk Hp.
  pose proof (clickable_key_truthy w Hr Hd Hk) as Ht.
  pose proof (handleImproveClick_no_prompt (ui w) Ht Hp) as Hh.
  simpl. rewrite Hd, Hh. repeat split.
Qed.

End Page_facts.

Lemma empty_prompt_only_asks_for_prompt_witness :
  improveButtonEl_disabled (ui (start page_stored_key_blank_prompt)) = false
  /\ userApiKey (ui (start page_stored_key_blank_prompt)) <> None
  /\ trim (originalPromptEl_value (ui (start page_stored_key_blank_prompt))) = []
  /\ issued (handleImproveClick (ui (start page_stored_key_blank_prompt))) = None.
Proof.
  assert (Hd : improveButtonEl_disabled (ui (start page_stored_key_blank_prompt)) = false)
    by (vm_compute; reflexivity).
  assert (Hk : userApiKey (ui (start page_stored_key_blank_prompt)) <> None)
    by (vm_compute; discriminate).
  assert (Hp : trim (originalPromptEl_value (ui (start page_stored_key_blank_prompt))) = [])
    by (vm_compute; reflexivity).
  split; [exact Hd|]. split; [exact Hk|]. split; [exact Hp|].
  exact (proj1 (empty_prompt_only_asks_for_prompt v8_TypeError_message
                  (start page_stored_key_blank_prompt)
                  (reachable_start v8_TypeError_message page_stored_key_blank_prompt)
                  Hd Hk Hp)).
Defined.

(** ** Requests in flight *)

Lemma request_disables_button (st st1 : app) (req : request) :
  handleImproveClick st = Awaiting st1 req ->
  improveButtonEl_disabled st1 = true.
Proof.
  intros H. apply handleImproveClick_awaiting in H as (_ & _ & -> & _). reflexivity.
Qed.

Section Saving_idle.

Variable TypeError_message : jsstring -> jsstring.

(** X13: as long as the key is not saved during a request, the button
    stays disabled from the request to its answer and requests never
    overlap: in every state so reached at most one request is pending, and
    the button is disabled while it is. *)
Lemma one_request_while_saving_idle (w : world) :
  reachable_saving_idle TypeError_message w -> one_at_a_time w.
Proof.
  unfold one_at_a_time.
  induction 1 as [page|w w' e _ IH Hsave Hs]; [left; reflexivity|].
  destruct e as [| | | |v|v|i o]; simpl in Hs.
  - destruct (improveButtonEl_disabled (ui w)) eqn:Hd; [discriminate|].
    destruct IH as [Hn|[_ Hb]]; [|congruence].
    destruct (handleImproveClick (ui w)) as [st'|st' req] eqn:Hh;
      injection Hs as <-; cbn [ui inflight]; rewrite Hn.
    + left. reflexivity.
    + right. split; [exists req; reflexivity|].
      exact (request_disables_button _ _ _ Hh).
  - injection Hs as <-. exact IH.
  - injection Hs as <-. exact IH.
  - injection Hs as <-. left. exact (Hsave eq_refl).
  - injection Hs as <-. exact IH.
  - injection Hs as <-. exact IH.
  - destruct (inflight w !! i) as [r|] eqn:Hi; [|discriminate].
    injection Hs as <-. cbn [ui inflight]. left.
    destruct IH as [Hn|[[req Hr] _]].
    + rewrite Hn in Hi. discriminate.
    + rewrite Hr in Hi |- *. destruct i as [|i]; [reflexivity|discriminate].
Qed.

End Saving_idle.

(** C7 fails on the code: [saveApiKey] ends with [updateUiForApiKey], which
    sets [disabled] from the key alone.  Saving the key while a request is
    pending enables the button again, and the next click starts a second
    request while the first is still in flight. *)
Theorem saving_key_reenables_button_in_flight :
  button_and_requests
    (run v8_TypeError_message (start page_stored_key) [ClickImprove])
  = Some (true, 1%nat)
  /\ button_and_requests
       (run v8_TypeError_message (start page_stored_key)
          [ClickImprove; ClickSettings; ClickSaveKey])
     = Some (false, 1%nat)
  /\ button_and_requests
       (run v8_TypeError_message (start page_stored_key)
          [ClickImprove; ClickSettings; ClickSaveKey; ClickImprove])
     = Some (true, 2%nat).
Proof. split; [|split]; vm_compute; reflexivity. Qed.

(** * Further properties *)

(** ** What [trim] returns *)

Lemma trimStart_split (s : jsstring) :
  exists pre, s = pre ++ trimStart s /\ forallb is_whitespace pre = true.
Proof.
  induction s as [|c s (pre & Hs & Hp)]; simpl.
  - exists []. split; reflexivity.
  - destruct (is_whitespace c) eqn:Hc.
    + exists (c :: pre). simpl. rewrite Hc, Hp. split; [congruence | reflexivity].
    + exists []. split; reflexivity.
Qed.

Lemma trimStart_fixed (s : jsstring) :
  (forall c t, s = c :: t -> is_whitespace c = false) -> trimStart s = s.
Proof.
  destruct s as [|c t]; simpl; [reflexivity|].
  intros H. rewrite (H c t eq_refl). reflexivity.
Qed.

Lemma trimEnd_split (s : jsstring) :
  exists post, s = trimEnd s ++ post /\ forallb is_whitespace post = true.
Proof.
  unfold trimEnd. destruct (trimStart_split (rev s)) as (pre & Hs & Hp).
  exists (rev pre). split.
  - rewrite <- (rev_involutive s) at 1. rewrite Hs at 1. apply rev_app_distr.
  - rewrite forallb_rev. exact Hp.
Qed.

Lemma trim_trimmed (s : jsstring) : trimmed (trim s).
Proof.
  unfold trim. split.
  - intros c t H.
    destruct (trimEnd_split (trimStart s)) as (post & Hs & _).
    rewrite H in Hs. simpl in Hs. exact (trimStart_head s c _ Hs).
  - intros c t H. unfold trimEnd in H.
    apply (f_equal (@rev N)) in H. rewrite rev_involutive, rev_app_distr in H.
    simpl in H. exact (trimStart_head _ c _ H).
Qed.

Lemma trimmed_trim (s : jsstring) : trimmed s -> trim s = s.
Proof.
  intros [Hl Hr]. unfold trim. rewrite (trimStart_fixed s Hl).
  unfold trimEnd. rewrite trimStart_fixed.
  - apply rev_involutive.
  - intros c t H. apply (Hr c (rev t)).
    rewrite <- (rev_involutive s), H. reflexivity.
Qed.

Lemma trim_idempotent (s : jsstring) : trim (trim s) = trim s.
Proof. apply trimmed_trim, trim_trimmed. Qed.

(** ** The stored key *)

(** X1: a key that [saveApiKey] keeps is never empty and has no white
    space at either end, and local storage holds the same string. *)
Theorem saved_key_is_trimmed (st : app) (k : jsstring) :
  userApiKey (saveApiKey st) = Some k ->
  k <> [] /\ trimmed k
  /\ localStorage (saveApiKey st) !! API_KEY_STORAGE_KEY = Some k.
Proof.
  destruct (trim (apiKeyInputEl_value st)) as [|c t] eqn:Hk.
  - rewrite (saveApiKey_empty st Hk). discriminate.
  - assert (Hne : trim (apiKeyInputEl_value st) <> []) by (rewrite Hk; discriminate).
    rewrite (saveApiKey_nonempty st Hne). simpl. intros [= <-].
    split; [exact Hne|]. split; [apply trim_trimmed | apply lookup_insert_eq].
Qed.

Lemma saved_key_is_trimmed_witness :
  userApiKey (saveApiKey (set_apiKeyInput (lit "  secret ") page_without_key))
    = Some (lit "secret")
  /\ trimmed (lit "secret").
Proof.
  assert (H : userApiKey (saveApiKey (set_apiKeyInput (lit "  secret ") page_without_key))
              = Some (lit "secret")) by reflexivity.
  split; [exact H|].
  exact (proj1 (proj2 (saved_key_is_trimmed _ _ H))).
Defined.

(** X2: the key survives a reload of the page.  A fresh run of the
    script ([userApiKey] back to [null], then [initializeApp]) on a page
    whose local storage is what [saveApiKey] left ends with the same
    in-memory key and the same state of the improve button as after the
    save.  When a key was saved the reload leaves the modal and the status
    text of the fresh page alone; when it was removed the reload opens the
    modal with an empty input and asks for a key. *)
Theorem saved_key_survives_reload (st page : app) :
  localStorage page = localStorage (saveApiKey st) ->
  let saved := saveApiKey st in
  let reloaded := initializeApp (set_userApiKey None page) in
  userApiKey reloaded = userApiKey saved
  /\ localStorage reloaded = localStorage saved
  /\ improveButtonEl_disabled reloaded = improveButtonEl_disabled saved
  /\ (if truthy (userApiKey saved)
      then apiKeyModalEl_hidden reloaded = apiKeyModalEl_hidden page
           /\ apiKeyInputEl_value reloaded = apiKeyInputEl_value page
           /\ statusEl_textContent reloaded = statusEl_textContent page
      else apiKeyModalEl_hidden reloaded = false
           /\ apiKeyInputEl_value reloaded = []
           /\ statusEl_textContent reloaded
              = lit "Please set your Gemini API Key to begin.").
Proof.
  intros Hs. cbv zeta.
  destruct (saveApiKey_key st) as (Hk & Hd & _).
  destruct (initializeApp_key (set_userApiKey None page)) as (Hk' & Hs' & Hd').
  change (localStorage (set_userApiKey None page)) with (localStorage page) in *.
  rewrite Hk', Hs', Hd', Hd, Hs, <- Hk.
  split; [reflexivity|]. split; [reflexivity|]. split; [reflexivity|].
  unfold initializeApp.
  change (userApiKey (set_userApiKey
                        (localStorage (set_userApiKey None page) !! API_KEY_STORAGE_KEY)
                        (set_userApiKey None page)))
    with (localStorage page !! API_KEY_STORAGE_KEY).
  rewrite Hs, <- Hk.
  destruct (truthy (userApiKey (saveApiKey st))) eqn:Ht;
    cbn -[lookup API_KEY_STORAGE_KEY saveApiKey].
  - repeat split.
  - repeat split.
    change (userApiKey (set_userApiKey ?k _)) with k.
    rewrite Hs, <- Hk, Ht. reflexivity.
Qed.

Lemma saved_key_survives_reload_witness :
  let saved := saveApiKey (set_apiKeyInput (lit "  secret ") page_without_key) in
  let reloaded :=
    initializeApp
      (set_userApiKey None
         (set_localStorage (localStorage saved) page_with_empty_key)) in
  userApiKey reloaded = Some (lit "secret")
  /\ userApiKey reloaded = userApiKey saved.
Proof.
  cbv zeta. split; [vm_compute; reflexivity|].
  exact (proj1 (saved_key_survives_reload
                  (set_apiKeyInput (lit "  secret ") page_without_key)
                  (set_localStorage
                     (localStorage
                        (saveApiKey (set_apiKeyInput (lit "  secret ") page_without_key)))
                     page_with_empty_key)
                  eq_refl)).
Defined.

(** X3: opening the modal after a save and saving again without editing
    changes neither the in-memory key nor local storage. *)
Theorem saving_again_changes_nothing (st : app) :
  let saved := saveApiKey st in
  let again := saveApiKey (showApiKeyModal saved) in
  userApiKey again = userApiKey saved
  /\ localStorage again = localStorage saved
  /\ improveButtonEl_disabled again = improveButtonEl_disabled saved.
Proof.
  cbv zeta.
  destruct (trim (apiKeyInputEl_value st)) as [|c t] eqn:Hk.
  - rewrite (saveApiKey_empty st Hk).
    rewrite saveApiKey_empty by reflexivity. simpl.
    split; [reflexivity|]. split; [|reflexivity].
    apply delete_id, lookup_delete_eq.
  - assert (Hne : trim (apiKeyInputEl_value st) <> []) by (rewrite Hk; discriminate).
    rewrite (saveApiKey_nonempty st Hne).
    assert (Hi : trim (apiKeyInputEl_value
                         (showApiKeyModal
                            (mkApp (Some (trim (apiKeyInputEl_value st)))
                               (<[API_KEY_STORAGE_KEY := trim (apiKeyInputEl_value st)]>
                                  (localStorage st))
                               (originalPromptEl_value st) false
                               (improveButtonEl_innerHTML st)
                               (lit "API Key saved. You can now improve your prompts!")
                               (improvedPromptEl_value st) (explanationEl_value st)
                               (apiKeyInputEl_value st) true)))
                 = trim (apiKeyInputEl_value st)).
    { unfold showApiKeyModal. simpl. rewrite Hk. simpl. rewrite <- Hk.
      apply trim_idempotent. }
    rewrite saveApiKey_nonempty by (rewrite Hi; exact Hne).
    rewrite Hi. simpl.
    split; [reflexivity|]. split; [|reflexivity].
    apply insert_insert_eq.
Qed.

(** ** Every answer to a request *)

Section Every_answer.

Variable TypeError_message : jsstring -> jsstring.

(** The [try] block either throws, leaving the state as it was, or has
    found both fields truthy and written them. *)
Lemma try_block_cases (o : outcome) :
  (exists e, forall st, try_block TypeError_message o st = (Throw e, st))
  \/ (exists v x y,
        o = Parsed v
        /\ get_property TypeError_message v (lit "improvedPrompt") = Normal x
        /\ ToBoolean x = true
        /\ get_property TypeError_message v (lit "explanation") = Normal y
        /\ ToBoolean y = true
        /\ forall st, try_block TypeError_message o st =
             (Normal tt,
              set_status (lit "Prompt improved successfully!")
                (set_explanation (value_setter y)
                   (set_improvedPrompt (value_setter x) st)))).
Proof.
  destruct o as [e|e|v].
  - left. exists e. reflexivity.
  - left. exists e. reflexivity.
  - destruct (get_property TypeError_message v (lit "improvedPrompt")) as [x|e] eqn:Hx.
    + destruct (ToBoolean x) eqn:Hbx.
      * destruct (get_property TypeError_message v (lit "explanation")) as [y|e] eqn:Hy.
        -- destruct (ToBoolean y) eqn:Hby.
           ++ right. exists v, x, y. repeat (split; [assumption || reflexivity|]).
              intros st. exact (try_block_populates _ v st x y Hx Hbx Hy Hby).
           ++ left. exists invalid_response_format. intros st.
              apply (try_block_invalid _ v st x Hx). right. exists y. auto.
        -- destruct (get_property_defined _ v _ (lit "explanation") _ Hx) as [y Hy'].
           congruence.
      * left. exists invalid_response_format. intros st.
        apply (try_block_invalid _ v st x Hx). left. exact Hbx.
    + left. exists e. intros st. run_block. simpl. rewrite Hx. reflexivity.
Qed.

(** X4: however the request ends, the handler itself returns normally (its
    promise is never rejected), and it leaves the improve button enabled
    with the label 'Improve Prompt'. *)
Theorem answer_always_reenables_button (o : outcome) (st : app) :
  fst (handleImproveClick_resume TypeError_message o st) = Normal tt
  /\ improveButtonEl_disabled
       (snd (handleImproveClick_resume TypeError_message o st)) = false
  /\ improveButtonEl_innerHTML
       (snd (handleImproveClick_resume TypeError_message o st))
     = lit "Improve Prompt".
Proof.
  destruct (try_block_cases o) as [(e & He)|(v & x & y & _ & _ & _ & _ & _ & Hs)].
  - assert (H : fst (try_block TypeError_message o st) = Throw e)
      by (rewrite He; reflexivity).
    rewrite (resume_after_throw _ o st e H). repeat split.
  - rewrite (resume_after_return _ o st _ (Hs st)). repeat split.
Qed.

(** X5: a whole invocation of the improve handler, whatever the state and
    the answer, changes neither the in-memory key nor local storage nor
    the text of the prompt input. *)
Theorem improve_keeps_key_storage_and_prompt (o : outcome) (st : app) :
  userApiKey (improve TypeError_message o st) = userApiKey st
  /\ localStorage (improve TypeError_message o st) = localStorage st
  /\ originalPromptEl_value (improve TypeError_message o st)
     = originalPromptEl_value st.
Proof.
  unfold improve, handleImproveClick.
  destruct (truthy (userApiKey st)); simpl; [|repeat split].
  destruct (nonempty (trim (originalPromptEl_value st))); simpl; [|repeat split].
  destruct (try_block_cases o) as [(e & He)|(v & x & y & _ & _ & _ & _ & _ & Hs)].
  - rewrite (resume_after_throw _ o _ e) by (rewrite He; reflexivity).
    destruct (includes (message e) credential_invalid_marker) eqn:Hi.
    + rewrite (catch_block_invalid_key e _ Hi). repeat split.
    + rewrite (catch_block_other e _ Hi). repeat split.
  - rewrite (resume_after_return _ o _ _ (Hs _)). repeat split.
Qed.

(** X6: what the outputs and the status show after a request depends on
    the answer alone: two invocations that both issue their request and
    get the same answer end with the same improved prompt, explanation and
    status, whatever the page showed before. *)
Theorem outputs_depend_only_on_answer (o : outcome) (st1 st2 : app) :
  truthy (userApiKey st1) = true ->
  trim (originalPromptEl_value st1) <> [] ->
  truthy (userApiKey st2) = true ->
  trim (originalPromptEl_value st2) <> [] ->
  improvedPromptEl_value (improve TypeError_message o st1)
    = improvedPromptEl_value (improve TypeError_message o st2)
  /\ explanationEl_value (improve TypeError_message o st1)
     = explanationEl_value (improve TypeError_message o st2)
  /\ statusEl_textContent (improve TypeError_message o st1)
     = statusEl_textContent (improve TypeError_message o st2).
Proof.
  intros Hk1 Hp1 Hk2 Hp2.
  rewrite (improve_validated _ o st1 Hk1 Hp1), (improve_validated _ o st2 Hk2 Hp2).
  destruct (try_block_cases o) as [(e & He)|(v & x & y & _ & _ & _ & _ & _ & Hs)].
  - rewrite !(resume_after_throw _ o _ e) by (rewrite He; reflexivity).
    destruct (includes (message e) credential_invalid_marker) eqn:Hi.
    + rewrite !(catch_block_invalid_key e _ Hi). repeat split.
    + rewrite !(catch_block_other e _ Hi). repeat split.
  - rewrite !(resume_after_return _ o _ _ (Hs _)). repeat split.
Qed.



(** X9: an answer that parses to something other than an object is an
    error.  For [null] the property read throws the engine's [TypeError];
    for a boolean, a number, a string or a list the read gives [undefined]
    and the handler throws its own format error.  Either way the improved
    prompt stays empty and the explanation holds the error detail. *)
Theorem non_object_response_is_error (st : app) (v : json) :
  truthy (userApiKey st) = true ->
  trim (originalPromptEl_value st) <> [] ->
  (forall ms, v <> JObject ms) ->
  let e := match v with
           | JNull => Error (TypeError_message (lit "improvedPrompt"))
           | _ => invalid_response_format
           end in
  fails_with TypeError_message (Parsed v) e
  /\ improvedPromptEl_value (improve TypeError_message (Parsed v) st) = []
  /\ explanationEl_value (improve TypeError_message (Parsed v) st)
     = lit "Error Details: " ++ message e.
Proof.
  intros Hk Hp Hv. cbv zeta.
  set (e := match v with
            | JNull => Error (TypeError_message (lit "improvedPrompt"))
            | _ => invalid_response_format
            end).
  assert (Hf : fails_with TypeError_message (Parsed v) e).
  { intros st0. subst e. destruct v as [|b|n|s|l|ms]; try reflexivity.
    exfalso. exact (Hv ms eq_refl). }
  split; [exact Hf|].
  rewrite (improve_failed _ (Parsed v) e st Hk Hp Hf).
  destruct (includes (message e) credential_invalid_marker) eqn:Hi.
  - rewrite (catch_block_invalid_key e _ Hi). split; reflexivity.
  - rewrite (catch_block_other e _ Hi). split; reflexivity.
Qed.

(** X10: a request opens the key modal only for an invalid-key failure.
    When it succeeds, or fails with a message that lacks the marker, the
    modal and the key input are as they were before the click. *)
Theorem request_leaves_modal_unless_key_invalid (o : outcome) (st : app) :
  truthy (userApiKey st) = true ->
  trim (originalPromptEl_value st) <> [] ->
  (forall e, fails_with TypeError_message o e ->
             includes (message e) credential_invalid_marker = false) ->
  apiKeyModalEl_hidden (improve TypeError_message o st) = apiKeyModalEl_hidden st
  /\ apiKeyInputEl_value (improve TypeError_message o st) = apiKeyInputEl_value st.
Proof.
  intros Hk Hp Hm. rewrite (improve_validated _ o st Hk Hp).
  destruct (try_block_cases o) as [(e & He)|(v & x & y & _ & _ & _ & _ & _ & Hs)].
  - assert (Hf : fails_with TypeError_message o e)
      by (intros st0; rewrite He; reflexivity).
    rewrite (resume_after_throw _ o _ e (Hf _)).
    rewrite (catch_block_other e _ (Hm e Hf)). split; reflexivity.
  - rewrite (resume_after_return _ o _ _ (Hs _)). split; reflexivity.
Qed.

End Every_answer.

Lemma outputs_depend_only_on_answer_witness :
  explanationEl_value page_ready <> explanationEl_value page_stored_key
  /\ explanationEl_value
       (improve v8_TypeError_message (Rejected fetch_error) page_ready)
     = explanationEl_value
         (improve v8_TypeError_message (Rejected fetch_error)
            (set_userApiKey (Some (lit "other")) page_stored_key)).
Proof.
  split; [discriminate|].
  assert (Hp : trim (originalPromptEl_value
                       (set_userApiKey (Some (lit "other")) page_stored_key)) <> [])
    by (vm_compute; discriminate).
  exact (proj1 (proj2
    (outputs_depend_only_on_answer v8_TypeError_message (Rejected fetch_error)
       page_ready (set_userApiKey (Some (lit "other")) page_stored_key)
       (proj1 page_ready_validated) (proj2 page_ready_validated) eq_refl Hp))).
Defined.



Lemma non_object_response_is_error_witness :
  explanationEl_value (improve v8_TypeError_message (Parsed JNull) page_ready)
  = lit "Error Details: Cannot read properties of null (reading 'improvedPrompt')"
  /\ explanationEl_value
       (improve v8_TypeError_message (Parsed (JArray [])) page_ready)
     = lit "Error Details: Invalid response format from the AI.".
Proof.
  split.
  - refine (proj2 (proj2
      (non_object_response_is_error v8_TypeError_message page_ready JNull
         (proj1 page_ready_validated) (proj2 page_ready_validated) _))).
    intros ms; discriminate.
  - refine (proj2 (proj2
      (non_object_response_is_error v8_TypeError_message page_ready (JArray [])
         (proj1 page_ready_validated) (proj2 page_ready_validated) _))).
    intros ms; discriminate.
Defined.

Lemma request_leaves_modal_unless_key_invalid_witness :
  apiKeyModalEl_hidden
    (improve v8_TypeError_message (Rejected fetch_error) page_ready) = true.
Proof.
  refine (proj1
    (request_leaves_modal_unless_key_invalid v8_TypeError_message
       (Rejected fetch_error) page_ready
       (proj1 page_ready_validated) (proj2 page_ready_validated) _)).
  intros e He. specialize (He page_ready). injection He as <-. reflexivity.
Defined.

(** ** Every state the page reaches *)

Section Every_state.

Variable TypeError_message : jsstring -> jsstring.

(** X11: through every sequence of the page's own events (clicks, edits,
    answers arriving in any order) the in-memory key is exactly what local
    storage holds under the fixed key. *)
Theorem key_always_agrees_with_storage (w : world) :
  reachable TypeError_message w ->
  userApiKey (ui w) = localStorage (ui w) !! API_KEY_STORAGE_KEY.
Proof. intros H. exact (proj1 (reachable_consistent _ w H)). Qed.

Lemma issued_request_well_formed (st st1 : app) (req : request) :
  handleImproveClick st = Awaiting st1 req -> well_formed_request req.
Proof.
  intros H. apply handleImproveClick_awaiting in H as (Hk & Hp & _ & ->).
  exists (default [] (userApiKey st)), (trim (originalPromptEl_value st)).
  split; [reflexivity|]. split; [|split; [exact Hp | apply trim_idempotent]].
  destruct (userApiKey st) as [[|c k]|]; simpl in *; congruence.
Qed.

(** X12: the page never sends a request with an empty key or an empty
    prompt: in every state it reaches, each pending request was built from
    a non-empty key and a non-empty prompt without white space around
    it. *)
Theorem pending_requests_well_formed (w : world) :
  reachable TypeError_message w -> Forall well_formed_request (inflight w).
Proof.
  induction 1 as [page|w w' e _ IH Hs]; [constructor|].
  destruct e as [| | | |v|v|i o]; simpl in Hs.
  - destruct (improveButtonEl_disabled (ui w)); [discriminate|].
    destruct (handleImproveClick (ui w)) as [st'|st' req] eqn:Hh;
      injection Hs as <-; cbn [inflight]; [exact IH|].
    apply Forall_app. split; [exact IH|].
    constructor; [|constructor]. exact (issued_request_well_formed _ _ _ Hh).
  - injection Hs as <-. exact IH.
  - injection Hs as <-. exact IH.
  - injection Hs as <-. exact IH.
  - injection Hs as <-. exact IH.
  - injection Hs as <-. exact IH.
  - destruct (inflight w !! i); [|discriminate].
    injection Hs as <-. cbn [inflight]. apply Forall_delete. exact IH.
Qed.

End Every_state.

Lemma key_always_agrees_with_storage_witness :
  exists w,
    run v8_TypeError_message (start page_stored_key) [ClickImprove] = Some w
    /\ userApiKey (ui w) = localStorage (ui w) !! API_KEY_STORAGE_KEY.
Proof.
  eexists. split; [reflexivity|].
  apply (key_always_agrees_with_storage v8_TypeError_message).
  apply (reachable_step _ (start page_stored_key) _ ClickImprove);
    [apply reachable_start | reflexivity].
Defined.

Lemma pending_requests_well_formed_witness :
  exists w,
    run v8_TypeError_message (start page_stored_key) [ClickImprove] = Some w
    /\ inflight w <> []
    /\ Forall well_formed_request (inflight w).
Proof.
  eexists. split; [reflexivity|]. split; [discriminate|].
  apply (pending_requests_well_formed v8_TypeError_message).
  apply (reachable_step _ (start page_stored_key) _ ClickImprove);
    [apply reachable_start | reflexivity].
Defined.

Lemma one_request_while_saving_idle_witness :
  exists w,
    run v8_TypeError_message (start page_stored_key) [ClickImprove] = Some w
    /\ one_at_a_time w.
Proof.
  eexists. split; [reflexivity|].
  apply (one_request_while_saving_idle v8_TypeError_message).
  apply (saving_idle_step _ (start page_stored_key) _ ClickImprove);
    [apply saving_idle_start | discriminate | reflexivity].
Defined.

(** ** Copying to the clipboard *)

Lemma copyButton_set_same (t : copy_target) (b : button) (d : desk) :
  copyButton (set_copyButton t b d) t = b.
Proof. destruct t; reflexivity. Qed.

Lemma copyButton_set_other (t t' : copy_target) (b : button) (d : desk) :
  t <> t' -> copyButton (set_copyButton t b d) t' = copyButton d t'.
Proof. destruct t, t'; intros H; try reflexivity; contradiction. Qed.

Lemma set_copyButton_same (t : copy_target) (d : desk) :
  set_copyButton t (copyButton d t) d = d.
Proof. destruct t, d; reflexivity. Qed.

Lemma copyToClipboard_nonempty (text : jsstring) (b : button) :
  text <> [] -> copyToClipboard text (Some b) = CopyAwaiting text.
Proof.
  intros H. apply nonempty_true in H. unfold copyToClipboard. rewrite H. reflexivity.
Qed.

Section Copying.

Variable TypeError_message : jsstring -> jsstring.

Lemma run_desk_app (d : desk) (es1 es2 : list desk_event) :
  run_desk TypeError_message d (es1 ++ es2) =
    match run_desk TypeError_message d es1 with
    | Some d' => run_desk TypeError_message d' es2
    | None => None
    end.
Proof.
  revert d. induction es1 as [|e es1 IH]; intros d; simpl; [reflexivity|].
  destruct (step_desk TypeError_message d e); [apply IH | reflexivity].
Qed.

(** Events of the page proper pass the copy buttons, the clipboard, the
    pending writes and the timeouts by. *)
Lemma run_desk_page_events (d : desk) (es : list event) (w : world) :
  run TypeError_message (desk_page d) es = Some w ->
  run_desk TypeError_message d (map PageEvent es) = Some (set_desk_page w d).
Proof.
  revert d. induction es as [|e es IH]; intros d; simpl.
  - intros [= <-]. destruct d; reflexivity.
  - destruct (step TypeError_message (desk_page d) e) as [w1|]; [|discriminate].
    intros H. rewrite (IH (set_desk_page w1 d) H). reflexivity.
Qed.

(** X14: a click on a copy button next to an empty text area does
    nothing: nothing is written to the clipboard and no state changes. *)
Theorem copy_of_empty_text_does_nothing (d : desk) (t : copy_target) :
  button_disabled (copyButton d t) = false ->
  textarea_value t (ui (desk_page d)) = [] ->
  step_desk TypeError_message d (ClickCopy t) = Some d.
Proof. intros Hd Hv. simpl. rewrite Hd, Hv. reflexivity. Qed.

(** X15: when the clipboard write is rejected, the copy button keeps its
    label and stays enabled, the clipboard keeps its content and no
    timeout is set; only the pending write is gone. *)
Theorem rejected_write_changes_nothing
  (d : desk) (i : nat) (t : copy_target) (text : jsstring) (e : error) :
  writes d !! i = Some (t, text) ->
  step_desk TypeError_message d (WriteSettles i (WriteRejected e))
  = Some (set_writes (delete i (writes d)) d).
Proof.
  intros H. simpl. rewrite H. simpl. rewrite set_copyButton_same. reflexivity.
Qed.

(** X16: a copy that succeeds comes full circle.  From a state with no
    copy under way: after the click, the write and the timeout, the
    clipboard holds the text that the text area held at the click, and the
    button is again enabled with the label it had; events of
    the page proper that happen in between (edits of the text area
    included) make no difference to either. *)
Theorem copy_round_trip
  (d : desk) (t : copy_target) (es1 es2 : list event) (w1 w2 : world) :
  writes d = [] ->
  timers d = [] ->
  button_disabled (copyButton d t) = false ->
  textarea_value t (ui (desk_page d)) <> [] ->
  run TypeError_message (desk_page d) es1 = Some w1 ->
  run TypeError_message w1 es2 = Some w2 ->
  run_desk TypeError_message d
    (ClickCopy t :: map PageEvent es1
       ++ WriteSettles 0 Written :: map PageEvent es2 ++ [TimerFires])
  = Some (set_clipboard (Some (textarea_value t (ui (desk_page d))))
            (set_desk_page w2 d)).
Proof.
  intros Hw Ht Hd Hv H1 H2.
  cbn [run_desk step_desk]. rewrite Hd, (copyToClipboard_nonempty _ _ Hv), Hw.
  rewrite (run_desk_app _ (map PageEvent es1)).
  rewrite (run_desk_page_events _ es1 w1) by exact H1.
  cbn [run_desk step_desk]. simpl writes. simpl lookup. cbv iota beta.
  cbn [copyToClipboard_resume].
  rewrite (run_desk_app _ (map PageEvent es2)).
  rewrite (run_desk_page_events _ es2 w2) by (destruct t; exact H2).
  destruct t, d as [w bo bi be c ws ts]; simpl in *; subst;
    [destruct bo as [l dis] | destruct bi as [l dis] | destruct be as [l dis]];
    simpl in *; subst; reflexivity.
Qed.

(** X17: two clicks on a copy button before the first write has ended
    leave the button with the label 'Copied!' for good: the second
    invocation takes the first one's 'Copied!' for the original content,
    and its timeout, which fires last, restores that. *)
Theorem double_click_leaves_copied_label (d : desk) (t : copy_target) :
  writes d = [] ->
  timers d = [] ->
  button_disabled (copyButton d t) = false ->
  textarea_value t (ui (desk_page d)) <> [] ->
  exists d',
    run_desk TypeError_message d
      [ClickCopy t; ClickCopy t; WriteSettles 0 Written; WriteSettles 0 Written;
       TimerFires; TimerFires] = Some d'
    /\ copyButton d' t = mkButton (lit "<span>Copied!</span>") false
    /\ writes d' = [] /\ timers d' = [].
Proof.
  intros Hw Ht Hd Hv.
  cbn [run_desk step_desk]. rewrite Hd, (copyToClipboard_nonempty _ _ Hv), Hw.
  destruct t, d as [w bo bi be c ws ts]; simpl in *; subst;
    rewrite Hd, (copyToClipboard_nonempty _ _ Hv); simpl;
    eexists; (split; [reflexivity|]); repeat split.
Qed.

Lemma step_desk_keeps_timers (d d' : desk) (e : desk_event) :
  disabled_buttons_have_timers d ->
  step_desk TypeError_message d e = Some d' ->
  disabled_buttons_have_timers d'.
Proof.
  unfold disabled_buttons_have_timers. intros Hinv Hs.
  destruct e as [e|t|i o|]; simpl in Hs.
  - destruct (step TypeError_message (desk_page d) e); [|discriminate].
    injection Hs as <-. intros t. exact (Hinv t).
  - destruct (button_disabled (copyButton d t)); [discriminate|].
    destruct (copyToClipboard _ _); injection Hs as <-; [exact Hinv|].
    intros t'. exact (Hinv t').
  - destruct (writes d !! i) as [[t text]|]; [|discriminate].
    destruct o as [|e]; simpl in Hs; injection Hs as <-.
    + intros t' Ht'.
      destruct t, t'; simpl in Ht' |- *;
        try (eexists; apply in_or_app; right; left; reflexivity);
        match goal with
        | |- exists _, In (?T, _) _ =>
            destruct (Hinv T Ht') as [c Hc]; exists c;
            apply in_or_app; left; exact Hc
        end.
    + intros t' Ht'.
      destruct t, t'; simpl in Ht' |- *;
        match goal with
        | |- exists _, In (?T, _) _ => exact (Hinv T Ht')
        end.
  - destruct (timers d) as [|[t c] rest] eqn:Hts; [discriminate|].
    injection Hs as <-.
    intros t' Ht'.
    destruct t, t'; simpl in Ht' |- *; try discriminate Ht';
      match goal with
      | |- exists _, In (?T, _) _ =>
          destruct (Hinv T Ht') as [c' [Hc|Hc]];
          [discriminate Hc | exists c'; exact Hc]
      end.
Qed.

(** X18: a copy button is never left disabled without a timeout pending
    that enables it again: if that holds of the state the page starts
    from, it holds of every state that clicks, writes and timeouts, in
    any order, lead to. *)
Theorem disabled_copy_button_has_timer (d0 d : desk) :
  disabled_buttons_have_timers d0 ->
  desk_reachable TypeError_message d0 d ->
  disabled_buttons_have_timers d.
Proof.
  intros H0. induction 1 as [|d d' e _ IH Hs]; [exact H0|].
  exact (step_desk_keeps_timers d d' e IH Hs).
Qed.

End Copying.

(** A desk with an empty improved-prompt output, and one with a write of
    the prompt under way. *)
Lemma copy_of_empty_text_does_nothing_witness :
  textarea_value CopyImproved
    (ui (desk_page (set_desk_page (mkWorld page_stored_key []) desk_ready))) = []
  /\ step_desk v8_TypeError_message
       (set_desk_page (mkWorld page_stored_key []) desk_ready)
       (ClickCopy CopyImproved)
     = Some (set_desk_page (mkWorld page_stored_key []) desk_ready).
Proof.
  split; [reflexivity|].
  exact (copy_of_empty_text_does_nothing v8_TypeError_message
           (set_desk_page (mkWorld page_stored_key []) desk_ready)
           CopyImproved eq_refl eq_refl).
Defined.

Lemma rejected_write_changes_nothing_witness :
  step_desk v8_TypeError_message
    (set_writes [(CopyOriginal, lit "  hi ")] desk_ready)
    (WriteSettles 0 (WriteRejected (Error (lit "Document is not focused."))))
  = Some desk_ready.
Proof.
  exact (rejected_write_changes_nothing v8_TypeError_message
           (set_writes [(CopyOriginal, lit "  hi ")] desk_ready)
           0 CopyOriginal (lit "  hi ")
           (Error (lit "Document is not focused.")) eq_refl).
Defined.

Lemma copy_round_trip_witness :
  exists d,
    run_desk v8_TypeError_message desk_ready
      (ClickCopy CopyExplanation
         :: map PageEvent [ClickImprove; Settle 0 (Rejected fetch_error)]
         ++ WriteSettles 0 Written :: map PageEvent [] ++ [TimerFires])
    = Some d
    /\ clipboard d = Some (lit "Error Details: old")
    /\ explanationEl_value (ui (desk_page d)) = lit "Error Details: Failed to fetch"
    /\ copyButton d CopyExplanation = mkButton (lit "Copy") false.
Proof.
  assert (Hv : textarea_value CopyExplanation (ui (desk_page desk_ready)) <> [])
    by discriminate.
  eexists. split.
  - exact (copy_round_trip v8_TypeError_message desk_ready CopyExplanation
             [ClickImprove; Settle 0 (Rejected fetch_error)] [] _ _
             eq_refl eq_refl eq_refl Hv eq_refl eq_refl).
  - split; [reflexivity|]. split; reflexivity.
Defined.

Lemma double_click_leaves_copied_label_witness :
  exists d,
    run_desk v8_TypeError_message desk_ready
      [ClickCopy CopyOriginal; ClickCopy CopyOriginal;
       WriteSettles 0 Written; WriteSettles 0 Written; TimerFires; TimerFires]
    = Some d
    /\ copyButton d CopyOriginal = mkButton (lit "<span>Copied!</span>") false
    /\ writes d = [] /\ timers d = [].
Proof.
  assert (Hv : textarea_value CopyOriginal (ui (desk_page desk_ready)) <> [])
    by discriminate.
  exact (double_click_leaves_copied_label v8_TypeError_message desk_ready
           CopyOriginal eq_refl eq_refl eq_refl Hv).
Defined.

Lemma disabled_copy_button_has_timer_witness :
  exists d,
    run_desk v8_TypeError_message desk_ready
      [ClickCopy CopyOriginal; WriteSettles 0 Written] = Some d
    /\ button_disabled (copyButton d CopyOriginal) = true
    /\ disabled_buttons_have_timers d.
Proof.
  eexists. split; [reflexivity|]. split; [reflexivity|].
  apply (disabled_copy_button_has_timer v8_TypeError_message desk_ready).
  - intros t. destruct t; discriminate.
  - eapply (desk_reachable_step _ _ _ _ (WriteSettles 0 Written)).
    + eapply (desk_reachable_step _ _ _ _ (ClickCopy CopyOriginal)).
      * apply desk_reachable_here.
      * reflexivity.
    + reflexivity.
Defined.
